(** * Circuit graph, code synthesis and LED simulation of the ESP8266 simulator

    Shallow embedding of [src/app/App.tsx]: the component / pin / connection
    data model, [generateCode], [addComponent], [handlePinClick], the drag
    handlers, the canvas hit test, [updateLedStates], [updatePotValue] and
    the toolbar actions, followed by the properties established about
    them. *)

From stdpp Require Import base option list strings pretty gmap fin_maps numbers.
From Stdlib Require Import Ascii String QArith Qcanon.

Local Open Scope Z_scope.

(** ** Data model *)

(** [type ComponentType = 'esp8266' | 'led' | 'resistor' | 'potentiometer'] *)
Inductive ComponentType := esp8266 | led | resistor | potentiometer.

#[global] Instance ComponentType_eq_dec : EqDecision ComponentType.
Proof. solve_decision. Defined.

(** The string a [ComponentType] is at run time (used in template literals). *)
Definition typeName (t : ComponentType) : string :=
  match t with
  | esp8266 => "esp8266"
  | led => "led"
  | resistor => "resistor"
  | potentiometer => "potentiometer"
  end.

Inductive Side := left | right.

Module Pin.
Record t := mk { id : string; label : string; x : Z; y : Z; side : Side }.
End Pin.

(** [config?: any]: the only keys the program ever stores are [color] (LED)
    and [value] (resistor, potentiometer); an absent key is [None]. *)
Module Config.
Record t := mk { color : option string; value : option Z }.
Definition empty : t := mk None None.
End Config.

Module Component.
Record t := mk {
  id : string;
  type : ComponentType;
  x : Z;
  y : Z;
  config : option Config.t;
  pins : option (list Pin.t)
}.
End Component.

Module Connection.
Record t := mk {
  id : string;
  fromComponentId : string;
  fromPinId : string;
  toComponentId : string;
  toPinId : string
}.
End Connection.

Module PinConnection.
Record t := mk { componentId : string; pinId : string }.
End PinConnection.

(** ** String helpers of the JavaScript runtime used by the program *)

Definition dq : string := String "034"%char "".
Definition nl : string := String "010"%char "".

(** [lines.join(sep)] *)
Fixpoint join (sep : string) (lines : list string) : string :=
  match lines with
  | [] => ""
  | [l] => l
  | l :: rest => l +:+ sep +:+ join sep rest
  end.

(** [s.split('_')[0]]: the text before the first underscore (all of [s] when
    there is none). *)
Fixpoint splitHead (s : string) : string :=
  match s with
  | "" => ""
  | String c rest => if Ascii.eqb c "_"%char then "" else String c (splitHead rest)
  end.

(** [`${n}`] for a non-negative integer. *)
Definition showNat (n : nat) : string := pretty n.
Definition showZ (n : Z) : string := pretty n.

(** ** The controller's pin table ([esp8266Pins]) *)

Module PinSpec.
Record t := mk { id : string; label : string; offset : Z }.
End PinSpec.

Definition esp8266Pins_left : list PinSpec.t :=
  [ PinSpec.mk "A0" "A0" 0;
    PinSpec.mk "RST" "RST" 1;
    PinSpec.mk "EN" "EN" 2;
    PinSpec.mk "3V3_L" "3V3" 3;
    PinSpec.mk "GND_L1" "GND" 4;
    PinSpec.mk "CLK" "CLK" 5;
    PinSpec.mk "SD0" "SD0" 6;
    PinSpec.mk "CMD" "CMD" 7;
    PinSpec.mk "SD1" "SD1" 8;
    PinSpec.mk "SD2" "SD2" 9;
    PinSpec.mk "SD3" "SD3" 10;
    PinSpec.mk "RX_L" "RX" 11;
    PinSpec.mk "TX_L" "TX" 12;
    PinSpec.mk "GND_L2" "GND" 13;
    PinSpec.mk "3V3_L2" "3V3" 14 ].

Definition esp8266Pins_right : list PinSpec.t :=
  [ PinSpec.mk "D0" "D0" 0;
    PinSpec.mk "D1" "D1" 1;
    PinSpec.mk "D2" "D2" 2;
    PinSpec.mk "D3" "D3" 3;
    PinSpec.mk "D4" "D4" 4;
    PinSpec.mk "D5" "D5" 5;
    PinSpec.mk "D6" "D6" 6;
    PinSpec.mk "D7" "D7" 7;
    PinSpec.mk "D8" "D8" 8;
    PinSpec.mk "3V3_R" "3V3" 9;
    PinSpec.mk "GND_R1" "GND" 10;
    PinSpec.mk "RX_R" "RX" 11;
    PinSpec.mk "TX_R" "TX" 12;
    PinSpec.mk "GND_R2" "GND" 13;
    PinSpec.mk "VIN" "VIN" 14 ].

(** ** [generateCode] *)

Definition isType (t : ComponentType) (c : Component.t) : bool :=
  bool_decide (Component.type c = t).

(** The predicate handed to [connections.find] for a component [comp] and its
    designated pin ([pinId] is ['anode'] for an LED, ['signal'] for a
    potentiometer). *)
Definition bindsTo (pinId : string) (comp esp : Component.t) (c : Connection.t) : bool :=
  (String.eqb (Connection.fromComponentId c) (Component.id comp)
   && String.eqb (Connection.fromPinId c) pinId
   && String.eqb (Connection.toComponentId c) (Component.id esp))
  || (String.eqb (Connection.toComponentId c) (Component.id comp)
      && String.eqb (Connection.toPinId c) pinId
      && String.eqb (Connection.fromComponentId c) (Component.id esp)).

(** [conn.fromComponentId === esp.id ? conn.fromPinId : conn.toPinId] *)
Definition espPin (esp : Component.t) (conn : Connection.t) : string :=
  if String.eqb (Connection.fromComponentId conn) (Component.id esp)
  then Connection.fromPinId conn
  else Connection.toPinId conn.

(** An entry of [ledConnections] / [potConnections]. *)
Module Bound.
Record t := mk { compId : string; pin : string }.
End Bound.

(** The body of the [if (conn) { ... push ... }] for one component. *)
Definition binding (pinId : string) (connections : list Connection.t)
    (esp comp : Component.t) : option Bound.t :=
  match find (bindsTo pinId comp esp) connections with
  | Some conn => Some (Bound.mk (Component.id comp) (splitHead (espPin esp conn)))
  | None => None
  end.

(** One iteration of [components.forEach(comp => ...)] over the pair
    [(ledConnections, potConnections)]. *)
Definition resolveStep (connections : list Connection.t) (esp : Component.t)
    (acc : list Bound.t * list Bound.t) (comp : Component.t)
    : list Bound.t * list Bound.t :=
  match Component.type comp with
  | led =>
      match binding "anode" connections esp comp with
      | Some b => (acc.1 ++ [b], acc.2)
      | None => acc
      end
  | potentiometer =>
      match binding "signal" connections esp comp with
      | Some b => (acc.1, acc.2 ++ [b])
      | None => acc
      end
  | _ => acc
  end.

Definition resolve (components : list Component.t) (connections : list Connection.t)
    (esp : Component.t) : list Bound.t * list Bound.t :=
  fold_left (resolveStep connections esp) components ([], []).

Definition ledDefine (idx : nat) (b : Bound.t) : string :=
  "#define LED_PIN_" +:+ showNat (idx + 1)%nat +:+ " " +:+ Bound.pin b.
Definition potDefine (idx : nat) (b : Bound.t) : string :=
  "#define POT_PIN_" +:+ showNat (idx + 1)%nat +:+ " " +:+ Bound.pin b.
Definition ledPinMode (idx : nat) (b : Bound.t) : string :=
  "  pinMode(LED_PIN_" +:+ showNat (idx + 1)%nat +:+ ", OUTPUT);".
Definition potRead (idx : nat) (b : Bound.t) : string :=
  "  potValue = analogRead(POT_PIN_" +:+ showNat (idx + 1)%nat +:+ ");".
Definition ledAnalogWrite (idx : nat) (b : Bound.t) : string :=
  "  analogWrite(LED_PIN_" +:+ showNat (idx + 1)%nat +:+ ", brightness);".
Definition ledDigitalWrite (level : string) (idx : nat) (b : Bound.t) : string :=
  "  digitalWrite(LED_PIN_" +:+ showNat (idx + 1)%nat +:+ ", " +:+ level +:+ ");".

Definition nonEmpty {A} (l : list A) : bool :=
  match l with [] => false | _ => true end.

Definition pinDefinitions (leds pots : list Bound.t) : list string :=
  imap ledDefine leds ++ imap potDefine pots.

(** The body of [loop()] between the braces. *)
Definition loopBody (leds pots : list Bound.t) : list string :=
  if nonEmpty pots && nonEmpty leds then
    ["  // Leer valor del potenciómetro"]
    ++ imap potRead pots
    ++ ["  ";
        "  // Convertir a rango PWM (0-1023 a 0-255)";
        "  brightness = map(potValue, 0, 1023, 0, 255);";
        "  ";
        "  // Controlar intensidad del LED con PWM"]
    ++ imap ledAnalogWrite leds
    ++ ["  ";
        "  // Imprimir valores en monitor serial";
        "  Serial.print(" +:+ dq +:+ "Potenciometro: " +:+ dq +:+ ");";
        "  Serial.print(potValue);";
        "  Serial.print(" +:+ dq +:+ " | Brillo LED: " +:+ dq +:+ ");";
        "  Serial.println(brightness);";
        "  ";
        "  delay(100);"]
  else if nonEmpty leds then
    ["  // Parpadeo simple del LED"]
    ++ imap (ledDigitalWrite "HIGH") leds
    ++ ["  delay(500);"]
    ++ imap (ledDigitalWrite "LOW") leds
    ++ ["  delay(500);"]
  else
    ["  // Código principal aquí";
     "  delay(100);"].

(** The block from [void setup() {] to the blank line after its closing brace. *)
Definition setupBlock (leds : list Bound.t) : list string :=
  ["void setup() {";
   "  Serial.begin(115200);"]
  ++ imap ledPinMode leds
  ++ ["  Serial.println(" +:+ dq +:+ "ESP8266 iniciado" +:+ dq +:+ ");";
      "}";
      ""].

(** [codeLines] as it stands when [codeLines.join('\n')] is evaluated. *)
Definition codeLines (leds pots : list Bound.t) : list string :=
  ["// Código generado automáticamente para NodeMCU ESP8266"; ""]
  ++ (if nonEmpty (pinDefinitions leds pots) then pinDefinitions leds pots ++ [""] else [])
  ++ (if nonEmpty pots && nonEmpty leds
      then ["int potValue = 0;"; "int brightness = 0;"; ""] else [])
  ++ setupBlock leds
  ++ ["void loop() {"]
  ++ loopBody leds pots
  ++ ["}"].

Definition placeholder : string := "// Agrega un ESP8266 para comenzar".

(** [generateCode]: the string passed to [setCode]. *)
Definition generateCode (components : list Component.t)
    (connections : list Connection.t) : string :=
  match find (isType esp8266) components with
  | None => placeholder
  | Some esp =>
      let '(ledConnections, potConnections) := resolve components connections esp in
      join nl (codeLines ledConnections potConnections)
  end.

(** ** [addComponent] *)

Definition espPinRow (x : Z) (side : Side) (p : PinSpec.t) : Pin.t :=
  Pin.mk (PinSpec.id p) (PinSpec.label p) x (PinSpec.offset p * 20 + 10) side.

Definition pinsOf (type : ComponentType) : list Pin.t :=
  match type with
  | esp8266 =>
      map (espPinRow 0 left) esp8266Pins_left
      ++ map (espPinRow 120 right) esp8266Pins_right
  | led =>
      [ Pin.mk "anode" "+" 20 0 left;
        Pin.mk "cathode" "-" 20 50 left ]
  | resistor =>
      [ Pin.mk "pin1" "1" 0 15 left;
        Pin.mk "pin2" "2" 80 15 right ]
  | potentiometer =>
      [ Pin.mk "vcc" "VCC" 10 65 left;
        Pin.mk "signal" "SIG" 35 65 left;
        Pin.mk "gnd" "GND" 60 65 right ]
  end.

Definition initialConfig (type : ComponentType) : Config.t :=
  match type with
  | led => Config.mk (Some "#ff0000") None
  | resistor => Config.mk None (Some 220)
  | potentiometer => Config.mk None (Some 512)
  | esp8266 => Config.empty
  end.

(** [now] is the value of [Date.now()] at the call. *)
Definition newComponent (now : Z) (type : ComponentType) : Component.t :=
  Component.mk (typeName type +:+ "_" +:+ showZ now) type 100 100
    (Some (initialConfig type)) (Some (pinsOf type)).

Definition addComponent (now : Z) (type : ComponentType)
    (components : list Component.t) : list Component.t :=
  components ++ [newComponent now type].

(** ** [updatePotValue] and the drag update of [handleMouseMove] *)

(** [{ ...comp.config, value: newValue }] *)
Definition withValue (cfg : option Config.t) (newValue : Z) : Config.t :=
  match cfg with
  | Some c => Config.mk (Config.color c) (Some newValue)
  | None => Config.mk None (Some newValue)
  end.

Definition updatePotValue (componentId : string) (newValue : Z)
    (components : list Component.t) : list Component.t :=
  map (fun comp =>
         if String.eqb (Component.id comp) componentId
         then Component.mk (Component.id comp) (Component.type comp)
                (Component.x comp) (Component.y comp)
                (Some (withValue (Component.config comp) newValue))
                (Component.pins comp)
         else comp) components.

Definition moveComponent (componentId : string) (newX newY : Z)
    (components : list Component.t) : list Component.t :=
  map (fun comp =>
         if String.eqb (Component.id comp) componentId
         then Component.mk (Component.id comp) (Component.type comp) newX newY
                (Component.config comp) (Component.pins comp)
         else comp) components.

(** ** The simulation effect ([updateLedStates]) *)

(** A JavaScript number that is the quotient of two integers is kept as the
    exact rational it denotes. *)
Definition num (z : Z) : Qc := Q2Qc (inject_Z z).

(** [components.find(co => co.id === id)] *)
Definition findById (components : list Component.t) (id : string) : option Component.t :=
  find (fun co => String.eqb (Component.id co) id) components.

(** [comp?.type === t] *)
Definition hasType (t : ComponentType) (comp : option Component.t) : bool :=
  match comp with
  | Some c => isType t c
  | None => false
  end.

(** [v || d] on an optional integer: [undefined] and [0] are falsy. *)
Definition orDefault (v : option Z) (d : Z) : Z :=
  match v with
  | Some 0 => d
  | Some n => n
  | None => d
  end.

(** [comp?.config?.value] *)
Definition configValue (comp : option Component.t) : option Z :=
  match comp with
  | Some c =>
      match Component.config c with
      | Some cfg => Config.value cfg
      | None => None
      end
  | None => None
  end.

(** The predicate of [ledToEspConn]. *)
Definition ledToEsp (components : list Component.t) (comp : Component.t)
    (c : Connection.t) : bool :=
  (String.eqb (Connection.fromComponentId c) (Component.id comp)
   || String.eqb (Connection.toComponentId c) (Component.id comp))
  && (hasType esp8266 (findById components (Connection.fromComponentId c))
      || hasType esp8266 (findById components (Connection.toComponentId c))).

(** One iteration of [connections.forEach(potConn => ...)] over
    [(hasPotentiometer, potValue)]. *)
Definition potScanStep (components : list Component.t) (acc : bool * Z)
    (potConn : Connection.t) : bool * Z :=
  let fromComp := findById components (Connection.fromComponentId potConn) in
  let toComp := findById components (Connection.toComponentId potConn) in
  if (hasType potentiometer fromComp && hasType esp8266 toComp)
     || (hasType potentiometer toComp && hasType esp8266 fromComp)
  then
    let potComp := if hasType potentiometer fromComp then fromComp else toComp in
    (true, orDefault (configValue potComp) 512)
  else acc.

Definition potScan (components : list Component.t) (connections : list Connection.t)
    : bool * Z :=
  fold_left (potScanStep components) connections (false, 512).

(** One iteration of [components.forEach(comp => ...)] over [newStates]. *)
Definition ledStateStep (components : list Component.t) (connections : list Connection.t)
    (newStates : gmap string Qc) (comp : Component.t) : gmap string Qc :=
  if isType led comp then
    match find (ledToEsp components comp) connections with
    | Some _ =>
        let '(hasPotentiometer, potValue) := potScan components connections in
        if hasPotentiometer
        then <[Component.id comp := (num potValue / num 1023)%Qc]> newStates
        else <[Component.id comp := num 1]> newStates
    | None => newStates
    end
  else newStates.

Definition updateLedStates (components : list Component.t)
    (connections : list Connection.t) : gmap string Qc :=
  fold_left (ledStateStep components connections) components ∅.

(** The whole effect: the map handed to [setLedStates]. *)
Definition simulate (isRunning : bool) (components : list Component.t)
    (connections : list Connection.t) : gmap string Qc :=
  if isRunning then updateLedStates components connections else ∅.

(** ** Application state and user actions *)

Record State := mkState {
  components : list Component.t;
  connections : list Connection.t;
  code : string;
  isRunning : bool;
  draggingComponent : option string;
  dragOffset : Z * Z;
  connectingPin : option PinConnection.t;
  ledStates : gmap string Qc
}.

(** The effect with dependencies [[components, connections]]. *)
Definition generateCodeEffect (st : State) : State :=
  mkState (components st) (connections st)
    (generateCode (components st) (connections st))
    (isRunning st) (draggingComponent st) (dragOffset st) (connectingPin st)
    (ledStates st).

(** The effect with dependencies [[isRunning, components, connections]]. *)
Definition simulationEffect (st : State) : State :=
  mkState (components st) (connections st) (code st)
    (isRunning st) (draggingComponent st) (dragOffset st) (connectingPin st)
    (simulate (isRunning st) (components st) (connections st)).

Definition setComponents (cs : list Component.t) (st : State) : State :=
  simulationEffect (generateCodeEffect
    (mkState cs (connections st) (code st) (isRunning st)
       (draggingComponent st) (dragOffset st) (connectingPin st) (ledStates st))).

Definition setConnections (cs : list Connection.t) (st : State) : State :=
  simulationEffect (generateCodeEffect
    (mkState (components st) cs (code st) (isRunning st)
       (draggingComponent st) (dragOffset st) (connectingPin st) (ledStates st))).

Definition setConnectingPin (p : option PinConnection.t) (st : State) : State :=
  mkState (components st) (connections st) (code st) (isRunning st)
    (draggingComponent st) (dragOffset st) p (ledStates st).

Definition setIsRunning (b : bool) (st : State) : State :=
  simulationEffect
    (mkState (components st) (connections st) (code st) b
       (draggingComponent st) (dragOffset st) (connectingPin st) (ledStates st)).

Definition setCode (s : string) (st : State) : State :=
  mkState (components st) (connections st) s (isRunning st)
    (draggingComponent st) (dragOffset st) (connectingPin st) (ledStates st).

Definition setDragging (d : option string) (off : Z * Z) (st : State) : State :=
  mkState (components st) (connections st) (code st) (isRunning st)
    d off (connectingPin st) (ledStates st).

(** The state after the first render: both effects have run on empty lists. *)
Definition initialState : State :=
  mkState [] [] placeholder false None (0, 0) None ∅.

(** [handlePinClick]; [now] is [Date.now()]. *)
Definition handlePinClick (now : Z) (componentId pinId : string) (st : State) : State :=
  match connectingPin st with
  | None => setConnectingPin (Some (PinConnection.mk componentId pinId)) st
  | Some pending =>
      let st' :=
        if negb (String.eqb (PinConnection.componentId pending) componentId)
        then
          let newConnection :=
            Connection.mk ("conn_" +:+ showZ now)
              (PinConnection.componentId pending) (PinConnection.pinId pending)
              componentId pinId in
          setConnections (connections st ++ [newConnection]) st
        else st in
      setConnectingPin None st'
  end.

(** The "Limpiar Conexiones" button: [setConnections([])]. *)
Definition clearConnections (st : State) : State := setConnections [] st.

(** A component button of the palette. The ESP8266 button carries
    [disabled={components.some(c => c.type === 'esp8266')}]; a disabled
    button dispatches no click. *)
Definition buttonDisabled (type : ComponentType) (st : State) : bool :=
  match type with
  | esp8266 => existsb (isType esp8266) (components st)
  | _ => false
  end.

Definition clickAdd (now : Z) (type : ComponentType) (st : State) : State :=
  if buttonDisabled type st then st
  else setComponents (addComponent now type (components st)) st.

(** [handleMouseDown], [handleMouseMove], [handleMouseUp] with the pointer
    position relative to the canvas. *)
Definition handleMouseDown (mouseX mouseY : Z) (componentId : string) (st : State) : State :=
  match findById (components st) componentId with
  | None => st
  | Some component =>
      setDragging (Some componentId)
        (mouseX - Component.x component, mouseY - Component.y component) st
  end.

Definition handleMouseMove (mouseX mouseY : Z) (st : State) : State :=
  match draggingComponent st with
  | None => st
  | Some d =>
      setComponents
        (moveComponent d (mouseX - (dragOffset st).1) (mouseY - (dragOffset st).2)
           (components st)) st
  end.

Definition handleMouseUp (st : State) : State := setDragging None (dragOffset st) st.

(** What the user can do to the page. *)
Inductive Action :=
| ClickAdd (now : Z) (type : ComponentType)
| PinClick (now : Z) (componentId pinId : string)
| CancelConnect
| MouseDown (mouseX mouseY : Z) (componentId : string)
| MouseMove (mouseX mouseY : Z)
| MouseUp
| SetPot (componentId : string) (newValue : Z)
| ClearConnections
| ToggleRun
| EditCode (text : string).

Definition step (st : State) (a : Action) : State :=
  match a with
  | ClickAdd now type => clickAdd now type st
  | PinClick now componentId pinId => handlePinClick now componentId pinId st
  | CancelConnect => setConnectingPin None st
  | MouseDown mx my componentId => handleMouseDown mx my componentId st
  | MouseMove mx my => handleMouseMove mx my st
  | MouseUp => handleMouseUp st
  | SetPot componentId newValue =>
      setComponents (updatePotValue componentId newValue (components st)) st
  | ClearConnections => clearConnections st
  | ToggleRun => setIsRunning (negb (isRunning st)) st
  | EditCode text => setCode text st
  end.

Definition run (actions : list Action) : State := fold_left step actions initialState.

(** A store state is reachable when some sequence of user actions produces it. *)
Definition reachable (st : State) : Prop := ∃ actions, run actions = st.

(** ** Vocabulary of the properties *)

Definition esp8266Pins : list PinSpec.t := esp8266Pins_left ++ esp8266Pins_right.

(** What [resolveStep] appends to [ledConnections], resp. [potConnections]. *)
Definition ledBinding (connections : list Connection.t) (esp comp : Component.t)
    : option Bound.t :=
  if isType led comp then binding "anode" connections esp comp else None.

Definition potBinding (connections : list Connection.t) (esp comp : Component.t)
    : option Bound.t :=
  if isType potentiometer comp then binding "signal" connections esp comp else None.

(** Connection [c] joins endpoint [a] and endpoint [b] (each a pair of a
    component id and a pin id), in either orientation. *)
Definition joins (c : Connection.t) (a b : string * string) : Prop :=
  ((Connection.fromComponentId c, Connection.fromPinId c) = a
   ∧ (Connection.toComponentId c, Connection.toPinId c) = b)
  ∨ ((Connection.fromComponentId c, Connection.fromPinId c) = b
     ∧ (Connection.toComponentId c, Connection.toPinId c) = a).

(** Pin [pinId] of [comp] is wired to the controller, and every wire between
    that pin and the controller ends on a controller pin whose normalized
    name is [name]. *)
Definition wiredTo (connections : list Connection.t) (comp esp : Component.t)
    (pinId name : string) : Prop :=
  (∃ c pin, c ∈ connections
            ∧ joins c (Component.id comp, pinId) (Component.id esp, pin))
  ∧ (∀ c pin, c ∈ connections →
              joins c (Component.id comp, pinId) (Component.id esp, pin) →
              splitHead pin = name).

(** The pin of a component that must carry the wire for a binding to count,
    and the name of the constant the binding is declared under. *)
Definition designatedPin (t : ComponentType) : string :=
  match t with
  | potentiometer => "signal"
  | _ => "anode"
  end.

Definition constantPrefix (t : ComponentType) : string :=
  match t with
  | potentiometer => "#define POT_PIN_"
  | _ => "#define LED_PIN_"
  end.

(** The lines of a text that declare an LED pin constant. *)
Definition ledConstants (lines : list string) : list string :=
  List.filter (String.prefix "#define LED_PIN_") lines.

(** The skeleton emitted when nothing is bound. *)
Definition minimalSkeleton : list string :=
  [ "// Código generado automáticamente para NodeMCU ESP8266";
    "";
    "void setup() {";
    "  Serial.begin(115200);";
    "  Serial.println(" +:+ dq +:+ "ESP8266 iniciado" +:+ dq +:+ ");";
    "}";
    "";
    "void loop() {";
    "  // Código principal aquí";
    "  delay(100);";
    "}" ].

(** The text generated for one LED bound to [D1] and no potentiometer. *)
Definition blinkD1 : list string :=
  [ "// Código generado automáticamente para NodeMCU ESP8266";
    "";
    "#define LED_PIN_1 D1";
    "";
    "void setup() {";
    "  Serial.begin(115200);";
    "  pinMode(LED_PIN_1, OUTPUT);";
    "  Serial.println(" +:+ dq +:+ "ESP8266 iniciado" +:+ dq +:+ ");";
    "}";
    "";
    "void loop() {";
    "  // Parpadeo simple del LED";
    "  digitalWrite(LED_PIN_1, HIGH);";
    "  delay(500);";
    "  digitalWrite(LED_PIN_1, LOW);";
    "  delay(500);";
    "}" ].

Definition controllerCount (st : State) : nat :=
  List.length (List.filter (isType esp8266) (components st)).

(** [comp.config?.color] *)
Definition configColor (comp : Component.t) : option string :=
  match Component.config comp with
  | Some cfg => Config.color cfg
  | None => None
  end.

(** The test of the [if] inside [connections.forEach(potConn => ...)]. *)
Definition potLink (components : list Component.t) (potConn : Connection.t) : bool :=
  let fromComp := findById components (Connection.fromComponentId potConn) in
  let toComp := findById components (Connection.toComponentId potConn) in
  (hasType potentiometer fromComp && hasType esp8266 toComp)
  || (hasType potentiometer toComp && hasType esp8266 fromComp).

(** The [config.value] of the potentiometer end of a link. *)
Definition linkReading (components : list Component.t) (potConn : Connection.t)
    : option Z :=
  let fromComp := findById components (Connection.fromComponentId potConn) in
  let toComp := findById components (Connection.toComponentId potConn) in
  configValue (if hasType potentiometer fromComp then fromComp else toComp).

(** The number written for every connected LED. *)
Definition litLevel (components : list Component.t) (connections : list Connection.t)
    : Qc :=
  let '(hasPotentiometer, potValue) := potScan components connections in
  if hasPotentiometer then (num potValue / num 1023)%Qc else num 1.

(** The store after placing an LED and a potentiometer, wiring them to each
    other and pressing "Ejecutar": there is no controller. *)
Definition noController : State :=
  run [ClickAdd 1 led; ClickAdd 2 potentiometer;
       PinClick 3 "led_1" "anode"; PinClick 4 "potentiometer_2" "signal";
       ToggleRun].

(** The state in which a first click on the LED's anode has armed the pending
    endpoint. *)
Definition armedOnLed : State :=
  run [ClickAdd 1 led; ClickAdd 2 esp8266; PinClick 3 "led_1" "anode"].

(** The store after placing a controller and a potentiometer and wiring the
    potentiometer's signal pin to [A0]. *)
Definition potOnly : State :=
  run [ClickAdd 1 esp8266; ClickAdd 2 potentiometer;
       PinClick 3 "potentiometer_2" "signal"; PinClick 4 "esp8266_1" "A0"].

(** The store after placing a controller and an LED and drawing a wire from
    the controller pin [pin] to the LED pin [ledPin]. *)
Definition oneLed (ledPin pin : string) : State :=
  run [ClickAdd 1 esp8266; ClickAdd 2 led;
       PinClick 3 "esp8266_1" pin; PinClick 4 "led_2" ledPin].

(** The store after placing a controller and two LEDs; the wire of the second
    LED (to [D6]) is drawn before the wire of the first (to [D5]). *)
Definition twoLeds : State :=
  run [ClickAdd 1 esp8266; ClickAdd 2 led; ClickAdd 3 led;
       PinClick 4 "led_3" "anode"; PinClick 5 "esp8266_1" "D6";
       PinClick 6 "esp8266_1" "D5"; PinClick 7 "led_2" "anode"].

(** The store after placing a controller, an LED and a potentiometer, wiring
    the LED's anode to [D2] and the potentiometer's signal pin to [A0],
    moving the slider to [v] and pressing "Ejecutar". *)
Definition dimmer (v : Z) : State :=
  run [ClickAdd 1 esp8266; ClickAdd 2 led; ClickAdd 3 potentiometer;
       PinClick 4 "led_2" "anode"; PinClick 5 "esp8266_1" "D2";
       PinClick 6 "potentiometer_3" "signal"; PinClick 7 "esp8266_1" "A0";
       SetPot "potentiometer_3" v; ToggleRun].

(** ** The canvas [onMouseDown] handler *)

(** Pointer and component coordinates are integers, so
    [Math.sqrt(dx ** 2 + dy ** 2) < 12] holds exactly when the integer
    [dx ** 2 + dy ** 2] is below 144. *)
Definition pinHit (mouseX mouseY : Z) (comp : Component.t) (pin : Pin.t) : bool :=
  let pinX := Component.x comp + Pin.x pin in
  let pinY := Component.y comp + Pin.y pin in
  (mouseX - pinX) ^ 2 + (mouseY - pinY) ^ 2 <? 144.

(** The two nested [for] loops with their [break]s: the first component, in
    list order, that has a pin under the pointer, with its first such pin. *)
Fixpoint hitPin (mouseX mouseY : Z) (comps : list Component.t)
    : option (Component.t * Pin.t) :=
  match comps with
  | [] => None
  | comp :: rest =>
      match Component.pins comp with
      | Some pins =>
          match find (pinHit mouseX mouseY comp) pins with
          | Some pin => Some (comp, pin)
          | None => hitPin mouseX mouseY rest
          end
      | None => hitPin mouseX mouseY rest
      end
  end.

Definition boxWidth (type : ComponentType) : Z :=
  match type with
  | esp8266 => 120
  | led => 30
  | resistor => 60
  | potentiometer => 60
  end.

Definition boxHeight (type : ComponentType) : Z :=
  match type with
  | esp8266 => 300
  | led => 40
  | resistor => 20
  | potentiometer => 70
  end.

Definition inBox (mouseX mouseY : Z) (comp : Component.t) : bool :=
  (Component.x comp <=? mouseX)
  && (mouseX <=? Component.x comp + boxWidth (Component.type comp))
  && (Component.y comp <=? mouseY)
  && (mouseY <=? Component.y comp + boxHeight (Component.type comp)).

(** The canvas' [onMouseDown]: a pin under the pointer gets the click,
    otherwise the first component whose box holds the pointer is grabbed. *)
Definition canvasMouseDown (now mouseX mouseY : Z) (st : State) : State :=
  match hitPin mouseX mouseY (components st) with
  | Some (comp, pin) => handlePinClick now (Component.id comp) (Pin.id pin) st
  | None =>
      match find (inBox mouseX mouseY) (components st) with
      | Some comp => handleMouseDown mouseX mouseY (Component.id comp) st
      | None => st
      end
  end.

(** What reaches the handlers from the page: pin clicks and grabs only
    through the canvas hit test. [PotChange] stands for a slider's [onChange]
    and for a click on a potentiometer knob ([handleCanvasClick]), both of
    which end in [updatePotValue]; the knob's angle arithmetic is left out,
    so any id and any value may arrive. *)
Inductive Gesture :=
| PaletteClick (now : Z) (type : ComponentType)
| CanvasDown (now mouseX mouseY : Z)
| CanvasMove (mouseX mouseY : Z)
| CanvasUp
| PotChange (componentId : string) (newValue : Z)
| CancelClick
| ClearClick
| RunClick
| CodeEdit (text : string).

Definition gestureStep (st : State) (g : Gesture) : State :=
  match g with
  | PaletteClick now type => clickAdd now type st
  | CanvasDown now mx my => canvasMouseDown now mx my st
  | CanvasMove mx my => handleMouseMove mx my st
  | CanvasUp => handleMouseUp st
  | PotChange componentId newValue =>
      setComponents (updatePotValue componentId newValue (components st)) st
  | CancelClick => setConnectingPin None st
  | ClearClick => clearConnections st
  | RunClick => setIsRunning (negb (isRunning st)) st
  | CodeEdit text => setCode text st
  end.

Definition play (gestures : list Gesture) : State :=
  fold_left gestureStep gestures initialState.

(** ** Further vocabulary *)

(** The same wire with its two ends exchanged. *)
Definition flipConnection (c : Connection.t) : Connection.t :=
  Connection.mk (Connection.id c)
    (Connection.toComponentId c) (Connection.toPinId c)
    (Connection.fromComponentId c) (Connection.fromPinId c).

(** Exchange the two ends of the connections that [pick] selects. *)
Definition reorient (pick : Connection.t → bool) (c : Connection.t) : Connection.t :=
  if pick c then flipConnection c else c.

(** The text generated for one LED bound to [ledPin] and one potentiometer
    bound to [potPin]. *)
Definition dimmerText (ledPin potPin : string) : list string :=
  [ "// Código generado automáticamente para NodeMCU ESP8266";
    "";
    "#define LED_PIN_1 " +:+ ledPin;
    "#define POT_PIN_1 " +:+ potPin;
    "";
    "int potValue = 0;";
    "int brightness = 0;";
    "";
    "void setup() {";
    "  Serial.begin(115200);";
    "  pinMode(LED_PIN_1, OUTPUT);";
    "  Serial.println(" +:+ dq +:+ "ESP8266 iniciado" +:+ dq +:+ ");";
    "}";
    "";
    "void loop() {";
    "  // Leer valor del potenciómetro";
    "  potValue = analogRead(POT_PIN_1);";
    "  ";
    "  // Convertir a rango PWM (0-1023 a 0-255)";
    "  brightness = map(potValue, 0, 1023, 0, 255);";
    "  ";
    "  // Controlar intensidad del LED con PWM";
    "  analogWrite(LED_PIN_1, brightness);";
    "  ";
    "  // Imprimir valores en monitor serial";
    "  Serial.print(" +:+ dq +:+ "Potenciometro: " +:+ dq +:+ ");";
    "  Serial.print(potValue);";
    "  Serial.print(" +:+ dq +:+ " | Brillo LED: " +:+ dq +:+ ");";
    "  Serial.println(brightness);";
    "  ";
    "  delay(100);";
    "}" ].


(** Pin [pinId] of a component with id [componentId] exists in the store. *)
Definition endpointExists (comps : list Component.t) (componentId pinId : string)
    : Prop :=
  ∃ comp pins pin,
    comp ∈ comps ∧ Component.id comp = componentId
    ∧ Component.pins comp = Some pins ∧ pin ∈ pins ∧ Pin.id pin = pinId.

(** Both ends of every connection, and the pending endpoint if any, exist. *)
Definition wellWired (st : State) : Prop :=
  (∀ c, c ∈ connections st →
        endpointExists (components st) (Connection.fromComponentId c)
          (Connection.fromPinId c)
        ∧ endpointExists (components st) (Connection.toComponentId c)
            (Connection.toPinId c))
  ∧ (∀ p, connectingPin st = Some p →
          endpointExists (components st) (PinConnection.componentId p)
            (PinConnection.pinId p)).

(** The type and timestamp of every palette click of an action sequence. *)
Definition clickStamps (actions : list Action) : list (ComponentType * Z) :=
  omap (fun a => match a with
                 | ClickAdd now type => Some (type, now)
                 | _ => None
                 end) actions.

(** The id [addComponent] gives to a component of [type] created at [now]. *)
Definition freshId (stamp : ComponentType * Z) : string :=
  typeName stamp.1 +:+ "_" +:+ showZ stamp.2.

(** A connection one of whose ends is the component with id [componentId]. *)
Definition touches (componentId : string) (c : Connection.t) : bool :=
  String.eqb (Connection.fromComponentId c) componentId
  || String.eqb (Connection.toComponentId c) componentId.

(** Every [config.value] stored in the list is a reading of the slider's
    range. *)
Definition readingsInRange (comps : list Component.t) : Prop :=
  ∀ comp v, comp ∈ comps → configValue (Some comp) = Some v → 0 ≤ v ≤ 1023.

(** * Properties *)

(** ** Auxiliary facts about the resolver *)

Lemma resolve_fold connections esp comps leds pots :
  fold_left (resolveStep connections esp) comps (leds, pots)
  = (leds ++ omap (ledBinding connections esp) comps,
     pots ++ omap (potBinding connections esp) comps).
Proof.
  revert leds pots.
  induction comps as [|comp comps IH]; intros leds pots; simpl.
  - by rewrite !app_nil_r.
  - unfold resolveStep, ledBinding, potBinding, isType.
    destruct (Component.type comp) eqn:Ht; simpl; rewrite ?IH; try done.
    + destruct (binding "anode" connections esp comp); simpl; rewrite IH; simpl;
        by rewrite <- ?app_assoc.
    + destruct (binding "signal" connections esp comp); simpl; rewrite IH; simpl;
        by rewrite <- ?app_assoc.
Qed.

Lemma resolve_spec comps connections esp :
  resolve comps connections esp
  = (omap (ledBinding connections esp) comps,
     omap (potBinding connections esp) comps).
Proof. unfold resolve. by rewrite resolve_fold. Qed.

Lemma generateCode_controller comps connections esp :
  find (isType esp8266) comps = Some esp →
  generateCode comps connections
  = join nl (codeLines (omap (ledBinding connections esp) comps)
                       (omap (potBinding connections esp) comps)).
Proof. intros H. unfold generateCode. by rewrite H, resolve_spec. Qed.

Lemma find_isType_None t comps :
  Forall (fun c => Component.type c ≠ t) comps → find (isType t) comps = None.
Proof.
  induction 1 as [|c comps Hc _ IH]; simpl; [done|].
  unfold isType at 1. by rewrite bool_decide_eq_false_2.
Qed.

Lemma omap_None_all {A B} (f : A → option B) (l : list A) :
  (∀ x, x ∈ l → f x = None) → omap f l = [].
Proof.
  induction l as [|a l IH]; intros H; simpl; [done|].
  rewrite (H a) by apply list_elem_of_here.
  apply IH. intros x Hx. apply H. by apply list_elem_of_further.
Qed.

(** ** Auxiliary facts about the simulation *)

Lemma hasType_findById_absent t comps id :
  Forall (fun c => Component.type c ≠ t) comps → hasType t (findById comps id) = false.
Proof.
  intros H. unfold findById.
  destruct (find _ comps) as [c|] eqn:Hf; simpl; [|done].
  apply find_some in Hf as [Hin _].
  rewrite List.Forall_forall in H.
  unfold isType. apply bool_decide_eq_false_2. by apply H.
Qed.

Lemma find_all_false {A} (f : A → bool) (l : list A) :
  (∀ x, f x = false) → find f l = None.
Proof. intros H. induction l as [|a l IH]; simpl; [done|]. by rewrite H. Qed.

(** When no connection passes the [ledToEspConn] test for any component, the
    loop over the components never writes to [newStates]. *)
Lemma ledStates_fold_untouched all conns comps (m : gmap string Qc) :
  (∀ comp, find (ledToEsp all comp) conns = None) →
  fold_left (ledStateStep all conns) comps m = m.
Proof.
  intros H. revert m. induction comps as [|c comps IH]; intros m; simpl; [done|].
  rewrite IH. unfold ledStateStep. rewrite H. by destruct (isType led c).
Qed.

Lemma updateLedStates_no_connections comps : updateLedStates comps [] = ∅.
Proof. unfold updateLedStates. by apply ledStates_fold_untouched. Qed.

Lemma updateLedStates_no_controller comps conns :
  Forall (fun c => Component.type c ≠ esp8266) comps →
  updateLedStates comps conns = ∅.
Proof.
  intros H. unfold updateLedStates. apply ledStates_fold_untouched.
  intros comp. apply find_all_false. intros c. unfold ledToEsp.
  rewrite !hasType_findById_absent by done. by rewrite andb_false_r.
Qed.

(** ** No controller *)

(** C4: without a controller component the generated code is the placeholder
    comment and the brightness map is empty, whatever the run flag (so also
    while it is active), the other components and the connections are. *)
Theorem no_controller_placeholder (running : bool) (comps : list Component.t)
    (conns : list Connection.t) :
  Forall (fun c => Component.type c ≠ esp8266) comps →
  generateCode comps conns = "// Agrega un ESP8266 para comenzar"
  ∧ simulate running comps conns = ∅.
Proof.
  intros H. split.
  - unfold generateCode. by rewrite find_isType_None.
  - destruct running; simpl; [by apply updateLedStates_no_controller | done].
Qed.

Lemma no_controller_placeholder_witness :
  code noController = placeholder ∧ ledStates noController = ∅.
Proof.
  apply (no_controller_placeholder true (components noController)
           (connections noController)).
  repeat (apply Forall_cons; [vm_compute; discriminate|]). apply Forall_nil.
Defined.

(** ** Clearing the connections *)

Lemma generateCode_no_connections comps esp :
  find (isType esp8266) comps = Some esp →
  generateCode comps [] = join nl minimalSkeleton.
Proof.
  intros H. rewrite (generateCode_controller _ _ _ H).
  rewrite !omap_None_all; [done| |].
  - intros c _. unfold potBinding. by destruct (isType potentiometer c).
  - intros c _. unfold ledBinding. by destruct (isType led c).
Qed.

(** C7: on a state with a controller (which every graph with bindings has),
    [clearConnections] leaves the generated code equal to the no-LEDs-bound
    skeleton and the brightness map empty, and a second [clearConnections]
    changes nothing at all. *)
Theorem clearConnections_resets (st : State) (esp : Component.t) :
  find (isType esp8266) (components st) = Some esp →
  connections (clearConnections st) = []
  ∧ code (clearConnections st) = join nl minimalSkeleton
  ∧ ledStates (clearConnections st) = ∅
  ∧ clearConnections (clearConnections st) = clearConnections st.
Proof.
  intros H. repeat split.
  - simpl. by apply generateCode_no_connections with esp.
  - simpl. destruct (isRunning st); simpl; [apply updateLedStates_no_connections | done].
Qed.

Lemma clearConnections_resets_witness :
  let st := run [ClickAdd 1 esp8266; ClickAdd 2 led;
                 PinClick 3 "led_2" "anode"; PinClick 4 "esp8266_1" "D1";
                 ToggleRun] in
  ledStates st ≠ ∅
  ∧ code (clearConnections st) = join nl minimalSkeleton
  ∧ ledStates (clearConnections st) = ∅
  ∧ clearConnections (clearConnections st) = clearConnections st.
Proof.
  intros st. split.
  - intros H. apply (f_equal (fun m => m !! "led_2")) in H.
    vm_compute in H. discriminate H.
  - destruct (clearConnections_resets st (newComponent 1 esp8266))
      as (_ & H2 & H3 & H4); [vm_compute; reflexivity|].
    repeat split; assumption.
Defined.

(** ** The two-click connection gesture *)

(** C8 as stated fails: with the pending endpoint armed on the LED's anode, a
    click on the cathode of the same LED creates no connection, but the
    pending endpoint does not stay armed: it is cleared. *)
Lemma same_component_click_disarms :
  connectingPin armedOnLed = Some (PinConnection.mk "led_1" "anode")
  ∧ connections (handlePinClick 4 "led_1" "cathode" armedOnLed) = connections armedOnLed
  ∧ connectingPin (handlePinClick 4 "led_1" "cathode" armedOnLed) = None
  ∧ connectingPin (handlePinClick 4 "led_1" "cathode" armedOnLed) ≠ connectingPin armedOnLed.
Proof. vm_compute. repeat split; discriminate. Qed.

(** C8, amended: with a pending endpoint armed, a second pin click always
    clears the pending endpoint; on the same component it leaves the
    connection list as it is, on a different component it appends exactly one
    connection, from the pending endpoint to the clicked pin. *)
Theorem second_click_completes_or_cancels (st : State) (pending : PinConnection.t)
    (now : Z) (componentId pinId : string) :
  connectingPin st = Some pending →
  let st' := handlePinClick now componentId pinId st in
  connectingPin st' = None
  ∧ components st' = components st
  ∧ (PinConnection.componentId pending = componentId →
     connections st' = connections st)
  ∧ (PinConnection.componentId pending ≠ componentId →
     connections st'
     = connections st
       ++ [Connection.mk ("conn_" +:+ showZ now)
             (PinConnection.componentId pending) (PinConnection.pinId pending)
             componentId pinId]).
Proof.
  intros H st'. subst st'. unfold handlePinClick. rewrite H.
  destruct (String.eqb_spec (PinConnection.componentId pending) componentId) as [E|E];
    simpl; repeat split; intros; congruence.
Qed.

Lemma second_click_completes_or_cancels_witness :
  connectingPin (handlePinClick 4 "led_1" "cathode" armedOnLed) = None
  ∧ connections (handlePinClick 4 "led_1" "cathode" armedOnLed) = []
  ∧ connections (handlePinClick 4 "esp8266_2" "D1" armedOnLed)
    = [Connection.mk "conn_4" "led_1" "anode" "esp8266_2" "D1"].
Proof.
  pose (pending := PinConnection.mk "led_1" "anode").
  assert (Harmed : connectingPin armedOnLed = Some pending) by (vm_compute; reflexivity).
  destruct (second_click_completes_or_cancels armedOnLed pending 4 "led_1" "cathode" Harmed)
    as (H1 & _ & H2 & _).
  destruct (second_click_completes_or_cancels armedOnLed pending 4 "esp8266_2" "D1" Harmed)
    as (_ & _ & _ & H3).
  split; [exact H1|]. split.
  - rewrite H2; [vm_compute|]; reflexivity.
  - rewrite H3; [vm_compute; reflexivity|]. simpl. discriminate.
Defined.

(** ** At most one controller *)

Lemma filter_existsb_false {A} (f : A → bool) (l : list A) :
  existsb f l = false → List.filter f l = [].
Proof.
  induction l as [|a l IH]; simpl; [done|].
  destruct (f a); simpl; [discriminate | exact IH].
Qed.

Lemma filter_map_same_type (g : Component.t → Component.t) t comps :
  (∀ c, Component.type (g c) = Component.type c) →
  List.length (List.filter (isType t) (map g comps)) = List.length (List.filter (isType t) comps).
Proof.
  intros Hg. induction comps as [|c comps IH]; simpl; [done|].
  assert (E : isType t (g c) = isType t c) by (unfold isType; by rewrite Hg).
  rewrite E. destruct (isType t c); simpl; [f_equal|]; exact IH.
Qed.

Lemma updatePotValue_controllers componentId v comps :
  List.length (List.filter (isType esp8266) (updatePotValue componentId v comps))
  = List.length (List.filter (isType esp8266) comps).
Proof.
  apply filter_map_same_type. intros c.
  by destruct (String.eqb (Component.id c) componentId).
Qed.

Lemma moveComponent_controllers componentId nx ny comps :
  List.length (List.filter (isType esp8266) (moveComponent componentId nx ny comps))
  = List.length (List.filter (isType esp8266) comps).
Proof.
  apply filter_map_same_type. intros c.
  by destruct (String.eqb (Component.id c) componentId).
Qed.

Lemma step_controllerCount st a :
  (controllerCount st ≤ 1)%nat → (controllerCount (step st a) ≤ 1)%nat.
Proof.
  unfold controllerCount. intros H.
  destruct a as [now type| now cid pid | | mx my cid | mx my | | cid v | | | text];
    simpl; try exact H.
  - unfold clickAdd. destruct (buttonDisabled type st) eqn:Hb; simpl; [exact H|].
    unfold addComponent. rewrite List.filter_app, length_app. simpl.
    destruct type; simpl in *; try lia.
    rewrite (filter_existsb_false _ _ Hb). simpl. lia.
  - unfold handlePinClick. destruct (connectingPin st) as [p|]; simpl; [|exact H].
    by destruct (negb _).
  - unfold handleMouseDown. by destruct (findById _ _).
  - unfold handleMouseMove. destruct (draggingComponent st); simpl; [|exact H].
    by rewrite moveComponent_controllers.
  - by rewrite updatePotValue_controllers.
Qed.

Lemma fold_step_controllerCount actions st :
  (controllerCount st ≤ 1)%nat → (controllerCount (fold_left step actions st) ≤ 1)%nat.
Proof.
  revert st. induction actions as [|a actions IH]; intros st H; simpl; [exact H|].
  apply IH. by apply step_controllerCount.
Qed.

(** C9: every state reachable from the empty store by user actions (the
    palette buttons with the ESP8266 button disabled while a controller
    exists, pin clicks, drags, slider changes, clearing, run toggling, code
    edits) holds at most one controller component. *)
Theorem at_most_one_controller (st : State) :
  reachable st → (controllerCount st ≤ 1)%nat.
Proof.
  intros [actions <-]. unfold run. apply fold_step_controllerCount.
  unfold controllerCount. simpl. lia.
Qed.

Lemma at_most_one_controller_witness :
  (controllerCount (run [ClickAdd 1 esp8266; ClickAdd 2 led; ClickAdd 3 esp8266;
                         ClickAdd 4 esp8266]) ≤ 1)%nat.
Proof.
  apply at_most_one_controller.
  exists [ClickAdd 1 esp8266; ClickAdd 2 led; ClickAdd 3 esp8266; ClickAdd 4 esp8266].
  reflexivity.
Defined.

(** ** The frame of [updatePotValue] *)

Lemma lookup_map_list {A B} (f : A → B) (l : list A) (i : nat) :
  map f l !! i = f <$> (l !! i).
Proof.
  revert i. induction l as [|a l IH]; intros [|i]; simpl; try done.
Qed.

Lemma updatePotValue_absent componentId v comps :
  (∀ comp, comp ∈ comps → Component.id comp ≠ componentId) →
  updatePotValue componentId v comps = comps.
Proof.
  induction comps as [|c comps IH]; intros H; simpl; [done|].
  rewrite (proj2 (String.eqb_neq _ _)) by (apply H; apply list_elem_of_here).
  f_equal. apply IH. intros comp Hc. apply H. by apply list_elem_of_further.
Qed.

(** C10: [updatePotValue componentId v] keeps the length and the order of the
    component list; a component with that id keeps its id, type, position
    and pins (and the other keys of its config) and gets config value [v];
    every other component is unchanged; the connection list is unchanged;
    and when no component has that id the component list is unchanged. *)
Theorem updatePotValue_frame (st : State) (componentId : string) (v : Z) :
  components (step st (SetPot componentId v))
  = updatePotValue componentId v (components st)
  ∧ connections (step st (SetPot componentId v)) = connections st
  ∧ List.length (updatePotValue componentId v (components st))
    = List.length (components st)
  ∧ (∀ (i : nat) (comp : Component.t),
       components st !! i = Some comp →
       ∃ comp',
         updatePotValue componentId v (components st) !! i = Some comp'
         ∧ Component.id comp' = Component.id comp
         ∧ Component.type comp' = Component.type comp
         ∧ Component.x comp' = Component.x comp
         ∧ Component.y comp' = Component.y comp
         ∧ Component.pins comp' = Component.pins comp
         ∧ configColor comp' = configColor comp
         ∧ (Component.id comp = componentId → configValue (Some comp') = Some v)
         ∧ (Component.id comp ≠ componentId → comp' = comp))
  ∧ ((∀ comp, comp ∈ components st → Component.id comp ≠ componentId) →
     updatePotValue componentId v (components st) = components st).
Proof.
  split; [reflexivity|]. split; [reflexivity|]. split; [|split].
  - unfold updatePotValue. apply length_map.
  - intros i comp Hi. unfold updatePotValue. rewrite lookup_map_list, Hi. simpl.
    eexists; split; [reflexivity|].
    destruct (String.eqb_spec (Component.id comp) componentId) as [E|E].
    + repeat split; simpl; try done; try (intros; congruence).
      * unfold configColor, withValue. simpl. by destruct (Component.config comp).
      * intros _. unfold withValue. by destruct (Component.config comp).
    + repeat split; try done; intros; congruence.
  - apply updatePotValue_absent.
Qed.

(** ** Wiring, stated on the graph *)

Lemma joins_bindsTo pinId comp esp c pin :
  joins c (Component.id comp, pinId) (Component.id esp, pin) →
  bindsTo pinId comp esp c = true.
Proof.
  unfold joins, bindsTo. intros [[H1 H2]|[H1 H2]];
    injection H1 as -> ->; injection H2 as -> ->;
    rewrite !String.eqb_refl; simpl; [done | apply orb_true_r].
Qed.

Lemma bindsTo_joins pinId comp esp c :
  bindsTo pinId comp esp c = true →
  ∃ pin, joins c (Component.id comp, pinId) (Component.id esp, pin)
         ∧ (Component.id comp ≠ Component.id esp → espPin esp c = pin).
Proof.
  unfold bindsTo, joins, espPin. intros H.
  apply orb_true_iff in H as [H|H];
    apply andb_true_iff in H as [H H3]; apply andb_true_iff in H as [H1 H2];
    apply String.eqb_eq in H1, H2, H3.
  - exists (Connection.toPinId c). split; [left; by rewrite H1, H2, H3|].
    intros Hne. rewrite H1. by rewrite (proj2 (String.eqb_neq _ _) Hne).
  - exists (Connection.fromPinId c). split; [right; by rewrite H1, H2, H3|].
    intros _. by rewrite H3, String.eqb_refl.
Qed.

Lemma find_is_Some {A} (f : A → bool) (l : list A) (x : A) :
  x ∈ l → f x = true → ∃ y, find f l = Some y.
Proof.
  intros Hx Hf. destruct (find f l) as [y|] eqn:E; [by exists y|].
  apply list_elem_of_In in Hx. pose proof (find_none f l E x Hx). congruence.
Qed.

Lemma binding_wired connections comp esp pinId name :
  Component.id comp ≠ Component.id esp →
  wiredTo connections comp esp pinId name →
  binding pinId connections esp comp = Some (Bound.mk (Component.id comp) name).
Proof.
  intros Hne [(c & pin & Hc & Hj) Hall]. unfold binding.
  destruct (find_is_Some (bindsTo pinId comp esp) connections c Hc
              (joins_bindsTo _ _ _ _ _ Hj)) as [c0 Hfind].
  rewrite Hfind. apply find_some in Hfind as [Hin Hb].
  apply list_elem_of_In in Hin.
  destruct (bindsTo_joins _ _ _ _ Hb) as (pin0 & Hj0 & Hpin).
  rewrite (Hpin Hne). by rewrite (Hall c0 pin0 Hin Hj0).
Qed.

Lemma binding_unwired connections comp esp pinId :
  (∀ c pin, c ∈ connections →
            ¬ joins c (Component.id comp, pinId) (Component.id esp, pin)) →
  binding pinId connections esp comp = None.
Proof.
  intros H. unfold binding.
  destruct (find _ connections) as [c|] eqn:E; [|done].
  apply find_some in E as [Hin Hb]. apply list_elem_of_In in Hin.
  destruct (bindsTo_joins _ _ _ _ Hb) as (pin & Hj & _).
  by destruct (H c pin Hin Hj).
Qed.

Lemma wiredTo_Permutation connections connections' comp esp pinId name :
  connections ≡ₚ connections' →
  wiredTo connections comp esp pinId name →
  wiredTo connections' comp esp pinId name.
Proof.
  intros HP [(c & pin & Hc & Hj) Hall]. split.
  - exists c, pin. split; [by rewrite <- HP | done].
  - intros c' pin' Hc'. apply Hall. by rewrite HP.
Qed.

Lemma ledBinding_filter connections esp comps :
  omap (ledBinding connections esp) comps
  = omap (binding "anode" connections esp) (List.filter (isType led) comps).
Proof.
  induction comps as [|c comps IH]; simpl; [done|].
  unfold ledBinding at 1. destruct (isType led c); simpl; [|exact IH].
  destruct (binding "anode" connections esp c); [f_equal|]; exact IH.
Qed.

Lemma potBinding_filter connections esp comps :
  omap (potBinding connections esp) comps
  = omap (binding "signal" connections esp) (List.filter (isType potentiometer) comps).
Proof.
  induction comps as [|c comps IH]; simpl; [done|].
  unfold potBinding at 1. destruct (isType potentiometer c); simpl; [|exact IH].
  destruct (binding "signal" connections esp c); [f_equal|]; exact IH.
Qed.

(** ** Controller and no LED bound *)

(** C3 as stated fails: with a controller, no LED, and a potentiometer bound
    to [A0], no LED is bound, yet the generated code is not the minimal
    skeleton: it carries the potentiometer's pin constant. *)
Lemma bound_potentiometer_adds_constant :
  find (isType esp8266) (components potOnly) = Some (newComponent 1 esp8266)
  ∧ (resolve (components potOnly) (connections potOnly) (newComponent 1 esp8266)).1 = []
  ∧ code potOnly ≠ join nl minimalSkeleton
  ∧ code potOnly
    = join nl
        [ "// Código generado automáticamente para NodeMCU ESP8266";
          "";
          "#define POT_PIN_1 A0";
          "";
          "void setup() {";
          "  Serial.begin(115200);";
          "  Serial.println(" +:+ dq +:+ "ESP8266 iniciado" +:+ dq +:+ ");";
          "}";
          "";
          "void loop() {";
          "  // Código principal aquí";
          "  delay(100);";
          "}" ].
Proof. vm_compute. repeat split; discriminate. Qed.

(** C3, amended: with a controller and no LED bound, the generated code is
    the header, then one [POT_PIN] constant per bound potentiometer followed
    by a blank line (nothing when no potentiometer is bound), then the fixed
    initialization block and a loop body holding only the idle comment and
    the idle delay; it is the minimal skeleton exactly when no potentiometer
    is bound either. *)
Theorem no_led_bound_skeleton (comps : list Component.t)
    (conns : list Connection.t) (esp : Component.t) :
  find (isType esp8266) comps = Some esp →
  (resolve comps conns esp).1 = [] →
  generateCode comps conns
  = join nl
      ([ "// Código generado automáticamente para NodeMCU ESP8266"; "" ]
       ++ match (resolve comps conns esp).2 with
          | [] => []
          | pots => imap potDefine pots ++ [""]
          end
       ++ [ "void setup() {";
            "  Serial.begin(115200);";
            "  Serial.println(" +:+ dq +:+ "ESP8266 iniciado" +:+ dq +:+ ");";
            "}";
            "";
            "void loop() {";
            "  // Código principal aquí";
            "  delay(100);";
            "}" ])
  ∧ ((resolve comps conns esp).2 = [] →
     generateCode comps conns = join nl minimalSkeleton).
Proof.
  intros Hesp Hleds. unfold generateCode. rewrite Hesp.
  destruct (resolve comps conns esp) as [leds pots]. simpl in Hleds. subst leds.
  simpl. split.
  - destruct pots as [|p pots]; [reflexivity|].
    unfold codeLines, pinDefinitions. simpl. by rewrite <- !app_assoc.
  - by intros ->.
Qed.

Lemma no_led_bound_skeleton_witness :
  code potOnly
  = join nl
      [ "// Código generado automáticamente para NodeMCU ESP8266"; "";
        "#define POT_PIN_1 A0"; "";
        "void setup() {";
        "  Serial.begin(115200);";
        "  Serial.println(" +:+ dq +:+ "ESP8266 iniciado" +:+ dq +:+ ");";
        "}";
        "";
        "void loop() {";
        "  // Código principal aquí";
        "  delay(100);";
        "}" ].
Proof.
  destruct (no_led_bound_skeleton (components potOnly) (connections potOnly)
              (newComponent 1 esp8266)) as [H _];
    [vm_compute; reflexivity | vm_compute; reflexivity |].
  change (code potOnly) with (generateCode (components potOnly) (connections potOnly)).
  rewrite H. vm_compute. reflexivity.
Defined.

(** ** One LED *)

(** C1: in a graph whose components are a controller, exactly one LED and no
    potentiometer (resistors are allowed), (a) if the LED's anode is wired,
    in either orientation, to controller pin [D1] and to no other controller
    pin, the generated code is the one-LED blink text: its only LED pin
    constant is [#define LED_PIN_1 D1] and the loop body is
    HIGH / delay / LOW / delay; (b) if every wire between the LED and the
    controller touches the LED's cathode, no LED is bound and the idle
    skeleton is generated. *)
Theorem single_led_blink (comps : list Component.t) (conns : list Connection.t)
    (esp l : Component.t) :
  find (isType esp8266) comps = Some esp →
  List.filter (isType led) comps = [l] →
  List.filter (isType potentiometer) comps = [] →
  Component.id l ≠ Component.id esp →
  ((∃ c, c ∈ conns ∧ joins c (Component.id l, "anode") (Component.id esp, "D1")) →
   (∀ c pin, c ∈ conns →
             joins c (Component.id l, "anode") (Component.id esp, pin) → pin = "D1") →
   (resolve comps conns esp).1 = [Bound.mk (Component.id l) "D1"]
   ∧ generateCode comps conns = join nl blinkD1
   ∧ ledConstants blinkD1 = ["#define LED_PIN_1 D1"])
  ∧ ((∀ c pinL pinE, c ∈ conns →
        joins c (Component.id l, pinL) (Component.id esp, pinE) → pinL = "cathode") →
     (resolve comps conns esp).1 = []
     ∧ generateCode comps conns = join nl minimalSkeleton).
Proof.
  intros Hesp Hled Hpot Hne.
  rewrite (generateCode_controller _ _ _ Hesp), resolve_spec.
  rewrite ledBinding_filter, potBinding_filter, Hled, Hpot. simpl.
  split.
  - intros (c & Hc & Hj) Hall.
    rewrite (binding_wired conns l esp "anode" "D1" Hne).
    + repeat split; vm_compute; reflexivity.
    + split; [by exists c, "D1"|].
      intros c' pin Hc' Hj'. by rewrite (Hall c' pin Hc' Hj').
  - intros Hcath. rewrite binding_unwired; [done|].
    intros c pin Hc Hj. specialize (Hcath c "anode" pin Hc Hj). discriminate Hcath.
Qed.

Lemma single_led_blink_witness :
  code (oneLed "anode" "D1") = join nl blinkD1
  ∧ code (oneLed "cathode" "D1") = join nl minimalSkeleton.
Proof.
  assert (Hj : ∀ (ledPin pin : string) (c : Connection.t) (a b : string),
             c ∈ connections (oneLed ledPin pin) →
             joins c ("led_2", a) ("esp8266_1", b) → a = ledPin ∧ b = pin).
  { intros ledPin pin c a b Hc Hjoin.
    apply list_elem_of_singleton in Hc. subst c.
    destruct Hjoin as [[H1 H2]|[H1 H2]]; simpl in H1, H2.
    - vm_compute in H1. discriminate H1.
    - vm_compute in H1, H2. by simplify_eq. }
  split.
  - destruct (single_led_blink (components (oneLed "anode" "D1"))
                (connections (oneLed "anode" "D1"))
                (newComponent 1 esp8266) (newComponent 2 led)) as [H _];
      [vm_compute; reflexivity | vm_compute; reflexivity | vm_compute; reflexivity
      | vm_compute; discriminate |].
    destruct H as (_ & H & _); [| |exact H].
    + eexists. split; [apply list_elem_of_here|]. right. vm_compute. by split.
    + intros c pin Hc Hjoin. by destruct (Hj "anode" "D1" c "anode" pin Hc Hjoin).
  - destruct (single_led_blink (components (oneLed "cathode" "D1"))
                (connections (oneLed "cathode" "D1"))
                (newComponent 1 esp8266) (newComponent 2 led)) as [_ H];
      [vm_compute; reflexivity | vm_compute; reflexivity | vm_compute; reflexivity
      | vm_compute; discriminate |].
    destruct H as [_ H]; [|exact H].
    intros c pinL pinE Hc Hjoin. by destruct (Hj "cathode" "D1" c pinL pinE Hc Hjoin).
Defined.

(** ** Two LEDs *)

Lemma showNat_1 : showNat 1 = "1".
Proof. vm_compute. reflexivity. Qed.

Lemma showNat_2 : showNat 2 = "2".
Proof. vm_compute. reflexivity. Qed.

Lemma omap_two {X Y} (f : X → option Y) (x1 x2 : X) (y1 y2 : Y) :
  f x1 = Some y1 → f x2 = Some y2 → omap f [x1; x2] = [y1; y2].
Proof. intros H1 H2. simpl. by rewrite H1, H2. Qed.

Lemma codeLines_two_leds (a b : Bound.t) (pots : list Bound.t) :
  ∃ rest,
    codeLines [a; b] pots
    = "// Código generado automáticamente para NodeMCU ESP8266"
      :: "" :: ("#define LED_PIN_1 " +:+ Bound.pin a)
      :: ("#define LED_PIN_2 " +:+ Bound.pin b) :: rest.
Proof.
  unfold codeLines, pinDefinitions.
  cbn [imap app nonEmpty compose]. unfold ledDefine.
  change (0 + 1)%nat with 1%nat. change (1 + 1)%nat with 2%nat.
  rewrite showNat_1, showNat_2. eexists. reflexivity.
Qed.

(** C5: the component list is in creation order ([addComponent] appends).
    When the LEDs of the graph are [A] then [B], the anode of [A] is wired to
    a controller pin named [pA] and the anode of [B] to one named [pB], then
    for every reordering [conns'] of the connection list the bound LEDs are
    [A] on [pA] then [B] on [pB], and the generated code declares
    [LED_PIN_1] as [pA] and [LED_PIN_2] as [pB]. *)
Theorem binding_order_stable (comps : list Component.t)
    (conns conns' : list Connection.t) (esp A B : Component.t) (pA pB : string) :
  find (isType esp8266) comps = Some esp →
  List.filter (isType led) comps = [A; B] →
  Component.id A ≠ Component.id esp →
  Component.id B ≠ Component.id esp →
  wiredTo conns A esp "anode" pA →
  wiredTo conns B esp "anode" pB →
  conns ≡ₚ conns' →
  (resolve comps conns' esp).1
  = [Bound.mk (Component.id A) pA; Bound.mk (Component.id B) pB]
  ∧ ∃ rest,
      generateCode comps conns'
      = join nl
          ("// Código generado automáticamente para NodeMCU ESP8266"
           :: "" :: ("#define LED_PIN_1 " +:+ pA)
           :: ("#define LED_PIN_2 " +:+ pB) :: rest).
Proof.
  intros Hesp Hled HA HB HwA HwB HP.
  apply (wiredTo_Permutation _ _ _ _ _ _ HP) in HwA, HwB.
  rewrite (generateCode_controller _ _ _ Hesp), resolve_spec.
  rewrite ledBinding_filter, Hled.
  rewrite (omap_two _ _ _ _ _ (binding_wired _ _ _ _ _ HA HwA)
             (binding_wired _ _ _ _ _ HB HwB)).
  split; [reflexivity|].
  destruct (codeLines_two_leds (Bound.mk (Component.id A) pA)
              (Bound.mk (Component.id B) pB)
              (omap (potBinding conns' esp) comps)) as [rest Hrest].
  exists rest. by rewrite Hrest.
Qed.

Lemma binding_order_stable_witness :
  (resolve (components twoLeds) (rev (connections twoLeds)) (newComponent 1 esp8266)).1
  = [Bound.mk "led_2" "D5"; Bound.mk "led_3" "D6"]
  ∧ (resolve (components twoLeds) (connections twoLeds) (newComponent 1 esp8266)).1
    = [Bound.mk "led_2" "D5"; Bound.mk "led_3" "D6"].
Proof.
  assert (Hmem : ∀ c, c ∈ connections twoLeds →
            c = Connection.mk "conn_5" "led_3" "anode" "esp8266_1" "D6"
            ∨ c = Connection.mk "conn_7" "esp8266_1" "D5" "led_2" "anode").
  { intros c Hc. vm_compute in Hc.
    apply elem_of_cons in Hc as [->|Hc]; [by left|].
    apply list_elem_of_singleton in Hc as ->. by right. }
  assert (HwA : wiredTo (connections twoLeds) (newComponent 2 led)
                  (newComponent 1 esp8266) "anode" "D5").
  { split.
    - eexists _, "D5". split; [apply list_elem_of_further, list_elem_of_here|].
      right. vm_compute. by split.
    - intros c pin Hc Hj. destruct (Hmem c Hc) as [-> | ->];
        destruct Hj as [[H1 H2]|[H1 H2]]; vm_compute in H1, H2; by simplify_eq. }
  assert (HwB : wiredTo (connections twoLeds) (newComponent 3 led)
                  (newComponent 1 esp8266) "anode" "D6").
  { split.
    - eexists _, "D6". split; [apply list_elem_of_here|].
      left. vm_compute. by split.
    - intros c pin Hc Hj. destruct (Hmem c Hc) as [-> | ->];
        destruct Hj as [[H1 H2]|[H1 H2]]; vm_compute in H1, H2; by simplify_eq. }
  split.
  - refine (proj1 (binding_order_stable (components twoLeds) (connections twoLeds)
                     (rev (connections twoLeds)) (newComponent 1 esp8266)
                     (newComponent 2 led) (newComponent 3 led) "D5" "D6"
                     _ _ _ _ HwA HwB _));
      [vm_compute; reflexivity | vm_compute; reflexivity | vm_compute; discriminate
      | vm_compute; discriminate | apply Permutation_rev].
  - refine (proj1 (binding_order_stable (components twoLeds) (connections twoLeds)
                     (connections twoLeds) (newComponent 1 esp8266)
                     (newComponent 2 led) (newComponent 3 led) "D5" "D6"
                     _ _ _ _ HwA HwB _));
      [vm_compute; reflexivity | vm_compute; reflexivity | vm_compute; discriminate
      | vm_compute; discriminate | reflexivity].
Defined.

(** ** Pin-name normalization *)

(** On every row of the controller's pin table, the normalized id is the
    row's label. *)
Lemma splitHead_table (p : PinSpec.t) :
  p ∈ esp8266Pins → splitHead (PinSpec.id p) = PinSpec.label p.
Proof.
  intros Hp. apply list_elem_of_In in Hp. revert p Hp.
  apply (proj1 (List.Forall_forall
                  (fun p => splitHead (PinSpec.id p) = PinSpec.label p) esp8266Pins)).
  unfold esp8266Pins.
  repeat (apply Forall_cons; [vm_compute; reflexivity|]). apply Forall_nil.
Qed.

Lemma nonEmpty_elem {A} (x : A) (l : list A) : x ∈ l → nonEmpty l = true.
Proof. destruct l; [by intros ?%elem_of_nil | done]. Qed.

Lemma pinDefinitions_in_code (line : string) (leds pots : list Bound.t) :
  line ∈ pinDefinitions leds pots → line ∈ codeLines leds pots.
Proof.
  intros H. unfold codeLines. rewrite (nonEmpty_elem _ _ H).
  apply elem_of_app. right. apply elem_of_app. left.
  apply elem_of_app. by left.
Qed.

Lemma ledDefine_in_code (b : Bound.t) (leds pots : list Bound.t) :
  b ∈ leds → ∃ idx, ledDefine idx b ∈ codeLines leds pots.
Proof.
  intros [i Hi]%list_elem_of_lookup. exists i.
  apply pinDefinitions_in_code, elem_of_app. left.
  apply list_elem_of_lookup. exists i. by rewrite list_lookup_imap, Hi.
Qed.

Lemma potDefine_in_code (b : Bound.t) (leds pots : list Bound.t) :
  b ∈ pots → ∃ idx, potDefine idx b ∈ codeLines leds pots.
Proof.
  intros [i Hi]%list_elem_of_lookup. exists i.
  apply pinDefinitions_in_code, elem_of_app. right.
  apply list_elem_of_lookup. exists i. by rewrite list_lookup_imap, Hi.
Qed.

(** C6: take an LED or a potentiometer of a graph with a controller, whose
    designated pin (anode, resp. signal) is wired to the controller pin of
    table row [p], every other wire from that pin to the controller ending on
    a row with the same label (another physical occurrence of the same
    logical name). Then the component is bound under the row's label: the
    generated code holds the line [#define LED_PIN_k label] (resp.
    [POT_PIN_k]) for some index [k]. In particular the four ids [GND_L1],
    [GND_L2], [GND_R1], [GND_R2] are all emitted as [GND]. *)
Theorem pin_name_normalized (comps : list Component.t) (conns : list Connection.t)
    (esp comp : Component.t) (p : PinSpec.t) :
  find (isType esp8266) comps = Some esp →
  comp ∈ comps →
  Component.type comp = led ∨ Component.type comp = potentiometer →
  Component.id comp ≠ Component.id esp →
  p ∈ esp8266Pins →
  (∃ c, c ∈ conns
        ∧ joins c (Component.id comp, designatedPin (Component.type comp))
                  (Component.id esp, PinSpec.id p)) →
  (∀ c pin, c ∈ conns →
            joins c (Component.id comp, designatedPin (Component.type comp))
                    (Component.id esp, pin) →
            ∃ q, q ∈ esp8266Pins ∧ pin = PinSpec.id q
                 ∧ PinSpec.label q = PinSpec.label p) →
  binding (designatedPin (Component.type comp)) conns esp comp
  = Some (Bound.mk (Component.id comp) (PinSpec.label p))
  ∧ generateCode comps conns
    = join nl (codeLines (resolve comps conns esp).1 (resolve comps conns esp).2)
  ∧ (∃ idx : nat,
       (constantPrefix (Component.type comp) +:+ showNat (idx + 1) +:+ " "
        +:+ PinSpec.label p)
       ∈ codeLines (resolve comps conns esp).1 (resolve comps conns esp).2)
  ∧ map splitHead ["GND_L1"; "GND_L2"; "GND_R1"; "GND_R2"]
    = ["GND"; "GND"; "GND"; "GND"].
Proof.
  intros Hesp Hcomp Htype Hne Hp (c & Hc & Hj) Hall.
  assert (Hw : wiredTo conns comp esp (designatedPin (Component.type comp))
                 (PinSpec.label p)).
  { split; [by exists c, (PinSpec.id p)|].
    intros c' pin Hc' Hj'. destruct (Hall c' pin Hc' Hj') as (q & Hq & -> & <-).
    by apply splitHead_table. }
  pose proof (binding_wired _ _ _ _ _ Hne Hw) as Hb.
  split; [exact Hb|]. split; [|split; [|reflexivity]].
  { rewrite (generateCode_controller _ _ _ Hesp). by rewrite resolve_spec. }
  rewrite resolve_spec. cbn [fst snd].
  destruct Htype as [Ht|Ht]; rewrite Ht in *; simpl in Hb.
  - destruct (ledDefine_in_code (Bound.mk (Component.id comp) (PinSpec.label p))
                (omap (ledBinding conns esp) comps)
                (omap (potBinding conns esp) comps)) as [idx Hidx].
    + apply list_elem_of_omap. exists comp. split; [done|].
      unfold ledBinding, isType. by rewrite Ht, bool_decide_eq_true_2.
    + exists idx. exact Hidx.
  - destruct (potDefine_in_code (Bound.mk (Component.id comp) (PinSpec.label p))
                (omap (ledBinding conns esp) comps)
                (omap (potBinding conns esp) comps)) as [idx Hidx].
    + apply list_elem_of_omap. exists comp. split; [done|].
      unfold potBinding, isType. by rewrite Ht, bool_decide_eq_true_2.
    + exists idx. exact Hidx.
Qed.

Lemma pin_name_normalized_witness :
  binding "anode" (connections (oneLed "anode" "GND_R2")) (newComponent 1 esp8266)
    (newComponent 2 led)
  = Some (Bound.mk "led_2" "GND")
  ∧ binding "anode" (connections (oneLed "anode" "GND_L1")) (newComponent 1 esp8266)
      (newComponent 2 led)
    = Some (Bound.mk "led_2" "GND").
Proof.
  split.
  - refine (proj1 (pin_name_normalized (components (oneLed "anode" "GND_R2"))
                     (connections (oneLed "anode" "GND_R2"))
                     (newComponent 1 esp8266) (newComponent 2 led)
                     (PinSpec.mk "GND_R2" "GND" 13) _ _ _ _ _ _ _)).
    + vm_compute; reflexivity.
    + apply list_elem_of_further, list_elem_of_here.
    + by left.
    + vm_compute; discriminate.
    + apply list_elem_of_In. vm_compute. tauto.
    + eexists. split; [apply list_elem_of_here|]. right. vm_compute. by split.
    + intros c pin Hc Hj. exists (PinSpec.mk "GND_R2" "GND" 13).
      split; [apply list_elem_of_In; vm_compute; tauto|].
      apply list_elem_of_singleton in Hc. subst c.
      destruct Hj as [[H1 H2]|[H1 H2]]; vm_compute in H1, H2; by simplify_eq.
  - refine (proj1 (pin_name_normalized (components (oneLed "anode" "GND_L1"))
                     (connections (oneLed "anode" "GND_L1"))
                     (newComponent 1 esp8266) (newComponent 2 led)
                     (PinSpec.mk "GND_L1" "GND" 4) _ _ _ _ _ _ _)).
    + vm_compute; reflexivity.
    + apply list_elem_of_further, list_elem_of_here.
    + by left.
    + vm_compute; discriminate.
    + apply list_elem_of_In. vm_compute. tauto.
    + eexists. split; [apply list_elem_of_here|]. right. vm_compute. by split.
    + intros c pin Hc Hj. exists (PinSpec.mk "GND_L1" "GND" 4).
      split; [apply list_elem_of_In; vm_compute; tauto|].
      apply list_elem_of_singleton in Hc. subst c.
      destruct Hj as [[H1 H2]|[H1 H2]]; vm_compute in H1, H2; by simplify_eq.
Defined.

(** ** Potentiometer-gated brightness *)

Lemma potScan_fold comps conns (v : option Z) (acc : bool * Z) :
  (∀ c, c ∈ conns → potLink comps c = true → linkReading comps c = v) →
  fold_left (potScanStep comps) conns acc
  = if existsb (potLink comps) conns then (true, orDefault v 512) else acc.
Proof.
  revert acc. induction conns as [|c conns IH]; intros acc H; simpl; [done|].
  rewrite IH by (intros c' Hc'; apply H; by apply list_elem_of_further).
  unfold potScanStep. fold (potLink comps c). fold (linkReading comps c).
  destruct (potLink comps c) eqn:E; simpl; [|done].
  rewrite (H c (list_elem_of_here _ _) E). by destruct (existsb _ conns).
Qed.

Lemma ledStateStep_keeps all conns (m : gmap string Qc) (c : Component.t) (k : string) :
  m !! k = Some (litLevel all conns) →
  ledStateStep all conns m c !! k = Some (litLevel all conns).
Proof.
  intros Hm. unfold ledStateStep, litLevel in *.
  destruct (isType led c); [|done].
  destruct (find _ conns); [|done].
  destruct (potScan all conns) as [[] pv];
    (destruct (decide (Component.id c = k)) as [->|Hk];
     [by rewrite lookup_insert_eq | by rewrite lookup_insert_ne]).
Qed.

Lemma ledStateStep_writes all conns (m : gmap string Qc) (c : Component.t)
    (x : Connection.t) :
  isType led c = true →
  find (ledToEsp all c) conns = Some x →
  ledStateStep all conns m c !! Component.id c = Some (litLevel all conns).
Proof.
  intros Hled Hfind. unfold ledStateStep, litLevel. rewrite Hled, Hfind.
  destruct (potScan all conns) as [[] pv]; by rewrite lookup_insert_eq.
Qed.

Lemma ledStates_fold_keeps all conns comps (m : gmap string Qc) (k : string) :
  m !! k = Some (litLevel all conns) →
  fold_left (ledStateStep all conns) comps m !! k = Some (litLevel all conns).
Proof.
  revert m. induction comps as [|c comps IH]; intros m Hm; simpl; [done|].
  apply IH. by apply ledStateStep_keeps.
Qed.

Lemma ledStates_fold_writes all conns comps (m : gmap string Qc) (l : Component.t) :
  l ∈ comps →
  isType led l = true →
  (∃ c, c ∈ conns ∧ ledToEsp all l c = true) →
  fold_left (ledStateStep all conns) comps m !! Component.id l
  = Some (litLevel all conns).
Proof.
  intros Hl Hled (c & Hc & Hlink). revert m.
  induction comps as [|c0 comps IH]; intros m; [by apply elem_of_nil in Hl|].
  simpl. apply elem_of_cons in Hl as [<-|Hl]; [|by apply IH].
  destruct (find_is_Some _ _ _ Hc Hlink) as [x Hx].
  apply ledStates_fold_keeps. by apply ledStateStep_writes with x.
Qed.

(** What the running simulation stores for an LED that some connection links
    to the controller, when some connection links a potentiometer to the
    controller and every such link reads the config value [v]: the quotient
    of [v || 512] by 1023. *)
Lemma brightness_of_linked_led (comps : list Component.t) (conns : list Connection.t)
    (l : Component.t) (v : option Z) :
  l ∈ comps →
  Component.type l = led →
  (∃ c, c ∈ conns ∧ ledToEsp comps l c = true) →
  (∃ c, c ∈ conns ∧ potLink comps c = true) →
  (∀ c, c ∈ conns → potLink comps c = true → linkReading comps c = v) →
  simulate true comps conns !! Component.id l
  = Some (num (orDefault v 512) / num 1023)%Qc.
Proof.
  intros Hl Ht Hled (c & Hc & Hpot) Hall. simpl. unfold updateLedStates.
  rewrite (ledStates_fold_writes comps conns comps ∅ l Hl); [|by apply bool_decide_eq_true_2|done].
  unfold litLevel, potScan. rewrite (potScan_fold comps conns v _ Hall).
  assert (E : existsb (potLink comps) conns = true).
  { apply existsb_exists. exists c. split; [by apply list_elem_of_In | done]. }
  by rewrite E.
Qed.

(** For a reading other than 0 the stored brightness is the reading over
    1023. *)
Lemma brightness_of_nonzero_reading (comps : list Component.t)
    (conns : list Connection.t) (l : Component.t) (v : Z) :
  l ∈ comps →
  Component.type l = led →
  (∃ c, c ∈ conns ∧ ledToEsp comps l c = true) →
  (∃ c, c ∈ conns ∧ potLink comps c = true) →
  (∀ c, c ∈ conns → potLink comps c = true → linkReading comps c = Some v) →
  v ≠ 0 →
  simulate true comps conns !! Component.id l = Some (num v / num 1023)%Qc.
Proof.
  intros Hl Ht Hled Hpot Hall Hv.
  rewrite (brightness_of_linked_led comps conns l (Some v)) by done.
  by destruct v.
Qed.

Lemma num_quotient_neq (a b : Z) :
  a ≠ b → (num a / num 1023)%Qc ≠ (num b / num 1023)%Qc.
Proof.
  intros Hab H. apply Hab.
  assert (Hnz : num 1023 ≠ Q2Qc 0).
  { intros E. apply (f_equal this) in E. vm_compute in E. discriminate E. }
  apply (f_equal (fun q => (q * num 1023)%Qc)) in H.
  unfold Qcdiv in H. rewrite <- !Qcmult_assoc in H.
  rewrite !(Qcmult_comm (/ num 1023)), !Qcmult_inv_r, !Qcmult_1_r in H by exact Hnz.
  unfold num in H. apply (f_equal this) in H. unfold Q2Qc in H. cbn [this] in H.
  assert (Hq : (inject_Z a == inject_Z b)%Q).
  { rewrite <- (Qred_correct (inject_Z a)), <- (Qred_correct (inject_Z b)).
    by rewrite H. }
  unfold Qeq in Hq. simpl in Hq. lia.
Qed.

(** C2 at the reading 0: the potentiometer's config value is 0, the run flag
    is on, the LED and the potentiometer are both linked to the controller,
    and the LED's brightness entry is 512/1023, which is not 0/1023. With the
    reading 512 the entry is 512/1023 as well, and with 1023 it is
    1023/1023. *)
Theorem zero_reading_shows_default :
  isRunning (dimmer 0) = true
  ∧ configValue (findById (components (dimmer 0)) "potentiometer_3") = Some 0
  ∧ ledStates (dimmer 0) !! "led_2" = Some (num 512 / num 1023)%Qc
  ∧ (num 512 / num 1023)%Qc ≠ (num 0 / num 1023)%Qc
  ∧ ledStates (dimmer 512) !! "led_2" = Some (num 512 / num 1023)%Qc
  ∧ ledStates (dimmer 1023) !! "led_2" = Some (num 1023 / num 1023)%Qc.
Proof.
  split; [reflexivity|]. split; [vm_compute; reflexivity|].
  split; [vm_compute; reflexivity|].
  split; [by apply num_quotient_neq|].
  split; vm_compute; reflexivity.
Qed.

(** * Further properties of the code *)

(** ** What the derived views depend on *)

Lemma find_pointwise {A} (f g : A → bool) (l : list A) :
  (∀ x, f x = g x) → find f l = find g l.
Proof.
  intros H. induction l as [|a l IH]; simpl; [done|]. by rewrite H, IH.
Qed.

Lemma find_map_list {A B} (f : B → bool) (g : A → B) (l : list A) :
  find f (map g l) = option_map g (find (fun x => f (g x)) l).
Proof.
  induction l as [|a l IH]; simpl; [reflexivity|].
  destruct (f (g a)); simpl; [reflexivity | exact IH].
Qed.

Lemma omap_map_list {A B C} (f : B → option C) (g : A → B) (l : list A) :
  omap f (map g l) = omap (fun x => f (g x)) l.
Proof.
  induction l as [|a l IH]; simpl; [done|].
  destruct (f (g a)); [f_equal|]; exact IH.
Qed.

Lemma omap_pointwise {A B} (f g : A → option B) (l : list A) :
  (∀ x, f x = g x) → omap f l = omap g l.
Proof.
  intros H. induction l as [|a l IH]; simpl; [done|].
  rewrite H. destruct (g a); [f_equal|]; exact IH.
Qed.

Section Relabel.
(** A change of the components that keeps every id and type. *)
Variable g : Component.t → Component.t.
Hypothesis g_id : ∀ c, Component.id (g c) = Component.id c.
Hypothesis g_type : ∀ c, Component.type (g c) = Component.type c.

Lemma isType_relabel t c : isType t (g c) = isType t c.
Proof. unfold isType. by rewrite g_type. Qed.

Lemma binding_relabel pinId conns esp c :
  binding pinId conns (g esp) (g c) = binding pinId conns esp c.
Proof. unfold binding, bindsTo, espPin. by rewrite !g_id. Qed.

Lemma generateCode_relabel comps conns :
  generateCode (map g comps) conns = generateCode comps conns.
Proof.
  unfold generateCode. rewrite find_map_list.
  rewrite (find_pointwise _ (isType esp8266)) by apply isType_relabel.
  destruct (find (isType esp8266) comps) as [esp|]; [|reflexivity].
  cbn [option_map]. rewrite !resolve_spec, !omap_map_list.
  rewrite (omap_pointwise (fun x => ledBinding conns (g esp) (g x))
             (ledBinding conns esp)),
          (omap_pointwise (fun x => potBinding conns (g esp) (g x))
             (potBinding conns esp)); [reflexivity| |].
  - intros c. unfold potBinding. by rewrite isType_relabel, binding_relabel.
  - intros c. unfold ledBinding. by rewrite isType_relabel, binding_relabel.
Qed.

Lemma findById_relabel comps id :
  findById (map g comps) id = option_map g (findById comps id).
Proof.
  unfold findById. rewrite find_map_list.
  f_equal. apply find_pointwise. intros c. by rewrite g_id.
Qed.

Lemma hasType_relabel t comps id :
  hasType t (findById (map g comps) id) = hasType t (findById comps id).
Proof.
  rewrite findById_relabel. destruct (findById comps id); simpl; [|done].
  apply isType_relabel.
Qed.

Lemma ledToEsp_relabel comps c conn :
  ledToEsp (map g comps) (g c) conn = ledToEsp comps c conn.
Proof. unfold ledToEsp. by rewrite g_id, !hasType_relabel. Qed.

(** Here the change keeps every config as well. *)
Hypothesis g_config : ∀ c, Component.config (g c) = Component.config c.

Lemma potScanStep_relabel comps acc conn :
  potScanStep (map g comps) acc conn = potScanStep comps acc conn.
Proof.
  unfold potScanStep. rewrite !hasType_relabel, !findById_relabel.
  destruct (_ || _); [|done]. f_equal. f_equal.
  destruct (hasType potentiometer (findById comps (Connection.fromComponentId conn)));
    match goal with
    | |- configValue (option_map g ?o) = _ =>
        destruct o; simpl; [by rewrite g_config | done]
    end.
Qed.

Lemma potScan_relabel comps conns :
  potScan (map g comps) conns = potScan comps conns.
Proof.
  unfold potScan. generalize (false, 512).
  induction conns as [|c conns IH]; intros acc; simpl; [done|].
  by rewrite potScanStep_relabel, IH.
Qed.

Lemma ledStates_fold_relabel all conns comps (m : gmap string Qc) :
  fold_left (ledStateStep (map g all) conns) (map g comps) m
  = fold_left (ledStateStep all conns) comps m.
Proof.
  revert m. induction comps as [|c comps IH]; intros m; simpl; [done|].
  rewrite IH. f_equal. unfold ledStateStep.
  rewrite isType_relabel, g_id, potScan_relabel.
  by rewrite (find_pointwise _ (ledToEsp all c)) by apply ledToEsp_relabel.
Qed.

Lemma simulate_relabel running comps conns :
  simulate running (map g comps) conns = simulate running comps conns.
Proof.
  destruct running; simpl; [|done]. apply ledStates_fold_relabel.
Qed.
End Relabel.

(** X1: dragging a component never changes the generated code or the
    brightness map, and a new potentiometer reading never changes the
    generated code: both views read ids and types only, the simulation also
    the config. *)
Theorem drag_and_reading_keep_code (running : bool) (comps : list Component.t)
    (conns : list Connection.t) (componentId : string) (newX newY v : Z) :
  generateCode (moveComponent componentId newX newY comps) conns
  = generateCode comps conns
  ∧ simulate running (moveComponent componentId newX newY comps) conns
    = simulate running comps conns
  ∧ generateCode (updatePotValue componentId v comps) conns
    = generateCode comps conns.
Proof.
  split; [|split].
  - apply generateCode_relabel; intros c; by destruct (String.eqb _ _).
  - apply simulate_relabel; intros c; by destruct (String.eqb _ _).
  - apply generateCode_relabel; intros c; by destruct (String.eqb _ _).
Qed.

(** ** Wires are undirected *)

Lemma bindsTo_flip pinId comp esp c :
  bindsTo pinId comp esp (flipConnection c) = bindsTo pinId comp esp c.
Proof. unfold bindsTo, flipConnection. simpl. apply orb_comm. Qed.

Lemma espPin_flip pinId comp esp c :
  Component.id comp ≠ Component.id esp →
  bindsTo pinId comp esp c = true →
  espPin esp (flipConnection c) = espPin esp c.
Proof.
  intros Hne Hb. destruct (bindsTo_joins _ _ _ _ Hb) as (pin & Hj & Hpin).
  rewrite (Hpin Hne). unfold espPin, flipConnection. simpl.
  destruct Hj as [[H1 H2]|[H1 H2]]; injection H1 as E1 E2; injection H2 as E3 E4.
  - by rewrite E3, String.eqb_refl.
  - rewrite E3. by rewrite (proj2 (String.eqb_neq _ _) Hne).
Qed.

Lemma hasType_exclusive (o : option Component.t) :
  hasType potentiometer o = true → hasType esp8266 o = false.
Proof.
  destruct o as [c|]; simpl; [|done]. unfold isType.
  intros H%bool_decide_eq_true. apply bool_decide_eq_false_2. by rewrite H.
Qed.

Lemma potScanStep_flip comps acc c :
  potScanStep comps acc (flipConnection c) = potScanStep comps acc c.
Proof.
  unfold potScanStep, flipConnection. simpl.
  destruct (hasType potentiometer (findById comps (Connection.fromComponentId c)))
    eqn:Efp;
  destruct (hasType potentiometer (findById comps (Connection.toComponentId c)))
    eqn:Etp;
    rewrite ?(hasType_exclusive _ Efp), ?(hasType_exclusive _ Etp); simpl;
    rewrite ?andb_false_r, ?orb_false_r; simpl; done.
Qed.

Lemma ledToEsp_flip comps comp c :
  ledToEsp comps comp (flipConnection c) = ledToEsp comps comp c.
Proof.
  unfold ledToEsp, flipConnection. simpl. f_equal; apply orb_comm.
Qed.

Lemma binding_reorient pick pinId conns esp comp :
  Component.id comp ≠ Component.id esp →
  binding pinId (map (reorient pick) conns) esp comp = binding pinId conns esp comp.
Proof.
  intros Hne. unfold binding. rewrite find_map_list.
  rewrite (find_pointwise _ (bindsTo pinId comp esp)).
  - destruct (find _ conns) as [c|] eqn:E; simpl; [|done].
    apply find_some in E as [_ Hb]. unfold reorient.
    destruct (pick c); [|done]. by rewrite (espPin_flip _ _ _ _ Hne Hb).
  - intros c. unfold reorient. destruct (pick c); [apply bindsTo_flip | done].
Qed.

Lemma fold_left_pointwise {A B} (f g : A → B → A) (l : list B) (a : A) :
  (∀ x y, f x y = g x y) → fold_left f l a = fold_left g l a.
Proof.
  intros H. revert a. induction l as [|b l IH]; intros a; simpl; [done|].
  by rewrite H, IH.
Qed.

Lemma potScan_reorient pick comps conns :
  potScan comps (map (reorient pick) conns) = potScan comps conns.
Proof.
  unfold potScan. generalize (false, 512).
  induction conns as [|c conns IH]; intros acc; simpl; [done|].
  rewrite IH. f_equal. unfold reorient.
  destruct (pick c); [apply potScanStep_flip | done].
Qed.

Lemma ledStateStep_reorient pick all conns (m : gmap string Qc) c :
  ledStateStep all (map (reorient pick) conns) m c = ledStateStep all conns m c.
Proof.
  unfold ledStateStep. rewrite potScan_reorient, find_map_list.
  rewrite (find_pointwise _ (ledToEsp all c)).
  - by destruct (find (ledToEsp all c) conns).
  - intros x. unfold reorient. destruct (pick x); [apply ledToEsp_flip | done].
Qed.

Lemma simulate_reorient pick running comps conns :
  simulate running comps (map (reorient pick) conns) = simulate running comps conns.
Proof.
  destruct running; simpl; [|done]. unfold updateLedStates.
  apply fold_left_pointwise. intros m c. apply ledStateStep_reorient.
Qed.

Lemma omap_pointwise_in {A B} (f g : A → option B) (l : list A) :
  (∀ x, x ∈ l → f x = g x) → omap f l = omap g l.
Proof.
  induction l as [|a l IH]; intros H; simpl; [done|].
  rewrite (H a) by apply list_elem_of_here.
  assert (IH' : omap f l = omap g l).
  { apply IH. intros x Hx. apply H. by apply list_elem_of_further. }
  destruct (g a); [f_equal|]; exact IH'.
Qed.

(** X2: exchanging the two ends of any of the wires changes neither the
    brightness map nor, when no LED or potentiometer shares its id with the
    controller, the generated code. *)
Theorem wires_are_undirected (pick : Connection.t → bool) (running : bool)
    (comps : list Component.t) (conns : list Connection.t) :
  (∀ esp c, find (isType esp8266) comps = Some esp → c ∈ comps →
            Component.type c ≠ esp8266 → Component.id c ≠ Component.id esp) →
  generateCode comps (map (reorient pick) conns) = generateCode comps conns
  ∧ simulate running comps (map (reorient pick) conns)
    = simulate running comps conns.
Proof.
  intros Hids. split; [|apply simulate_reorient].
  unfold generateCode.
  destruct (find (isType esp8266) comps) as [esp|] eqn:Hesp; [|done].
  rewrite !resolve_spec. f_equal.
  assert (E : ∀ (t : ComponentType) (pinId : string) (c : Component.t),
            t ≠ esp8266 → c ∈ comps →
            (if isType t c then binding pinId (map (reorient pick) conns) esp c
             else None)
            = (if isType t c then binding pinId conns esp c else None)).
  { intros t pinId c Ht Hc. unfold isType.
    destruct (decide (Component.type c = t)) as [Hct|Hct].
    - rewrite !(bool_decide_eq_true_2 _ Hct).
      rewrite binding_reorient; [done|].
      apply (Hids esp c eq_refl Hc). by rewrite Hct.
    - by rewrite !(bool_decide_eq_false_2 _ Hct). }
  rewrite (omap_pointwise_in (ledBinding (map (reorient pick) conns) esp)
             (ledBinding conns esp) comps),
          (omap_pointwise_in (potBinding (map (reorient pick) conns) esp)
             (potBinding conns esp) comps); [done| |].
  - intros c Hc. by apply E.
  - intros c Hc. by apply E.
Qed.

Lemma wires_are_undirected_witness :
  generateCode (components (dimmer 700))
    (map flipConnection (connections (dimmer 700)))
  = code (dimmer 700)
  ∧ simulate true (components (dimmer 700))
      (map flipConnection (connections (dimmer 700)))
    = ledStates (dimmer 700).
Proof.
  apply (wires_are_undirected (fun _ => true) true (components (dimmer 700))
           (connections (dimmer 700))).
  intros esp c Hesp Hc Ht. vm_compute in Hesp. injection Hesp as <-.
  vm_compute in Hc.
  apply elem_of_cons in Hc as [->|Hc]; [by destruct Ht|].
  apply elem_of_cons in Hc as [->|Hc]; [vm_compute; discriminate|].
  apply list_elem_of_singleton in Hc as ->. vm_compute; discriminate.
Defined.

(** ** Only wires on the controller count *)

Lemma find_filter_implied {A} (f p : A → bool) (l : list A) :
  (∀ x, f x = true → p x = true) → find f (List.filter p l) = find f l.
Proof.
  intros H. induction l as [|a l IH]; simpl; [done|].
  destruct (p a) eqn:Ep; simpl.
  - by rewrite IH.
  - destruct (f a) eqn:Ef; [|exact IH]. rewrite (H a Ef) in Ep. discriminate Ep.
Qed.

Lemma bindsTo_touches pinId comp esp c :
  bindsTo pinId comp esp c = true → touches (Component.id esp) c = true.
Proof.
  unfold bindsTo, touches. intros H.
  apply orb_true_iff in H as [H|H];
    apply andb_true_iff in H as [_ H]; rewrite H; [apply orb_true_r | done].
Qed.

(** A connection one of whose ends is a component of type [esp8266]. *)
Lemma ledToEsp_onController comps comp c :
  ledToEsp comps comp c = true →
  hasType esp8266 (findById comps (Connection.fromComponentId c))
  || hasType esp8266 (findById comps (Connection.toComponentId c)) = true.
Proof. unfold ledToEsp. by intros [_ H]%andb_true_iff. Qed.

Lemma potScan_filter comps (p : Connection.t → bool) conns :
  (∀ c, potLink comps c = true → p c = true) →
  potScan comps (List.filter p conns) = potScan comps conns.
Proof.
  intros H. unfold potScan. generalize (false, 512).
  induction conns as [|c conns IH]; intros acc; simpl; [done|].
  destruct (p c) eqn:Ep; simpl; [apply IH|].
  rewrite IH. f_equal. unfold potScanStep. fold (potLink comps c).
  destruct (potLink comps c) eqn:El; [|done].
  rewrite (H c El) in Ep. discriminate Ep.
Qed.

(** X3: connections that do not end on the controller, and resistors, have
    no influence: the generated code is the same after dropping every
    connection neither end of which is the controller, and after dropping
    every resistor; the brightness map is the same after dropping every
    connection neither end of which is a component of type [esp8266]. *)
Theorem only_controller_wires_count (running : bool) (comps : list Component.t)
    (conns : list Connection.t) (esp : Component.t) :
  find (isType esp8266) comps = Some esp →
  generateCode comps (List.filter (touches (Component.id esp)) conns)
  = generateCode comps conns
  ∧ generateCode (List.filter (fun c => negb (isType resistor c)) comps) conns
    = generateCode comps conns
  ∧ simulate running comps
      (List.filter
         (fun c => hasType esp8266 (findById comps (Connection.fromComponentId c))
                   || hasType esp8266 (findById comps (Connection.toComponentId c)))
         conns)
    = simulate running comps conns.
Proof.
  intros Hesp. split; [|split].
  - unfold generateCode. rewrite Hesp, !resolve_spec.
    rewrite (omap_pointwise
               (ledBinding (List.filter (touches (Component.id esp)) conns) esp)
               (ledBinding conns esp)),
            (omap_pointwise
               (potBinding (List.filter (touches (Component.id esp)) conns) esp)
               (potBinding conns esp)); [done| |].
    + intros c. unfold potBinding, binding.
      by rewrite find_filter_implied by apply bindsTo_touches.
    + intros c. unfold ledBinding, binding.
      by rewrite find_filter_implied by apply bindsTo_touches.
  - unfold generateCode.
    assert (Hf : find (isType esp8266)
                   (List.filter (fun c => negb (isType resistor c)) comps)
                 = Some esp).
    { clear conns. induction comps as [|c comps IH]; simpl in *; [done|].
      unfold isType in *. destruct (Component.type c) eqn:Ht; simpl in *;
        rewrite ?Ht; simpl; by auto. }
    rewrite Hf, Hesp, !resolve_spec.
    assert (E : ∀ f : Component.t → option Bound.t,
              (∀ c, isType resistor c = true → f c = None) →
              omap f (List.filter (fun c => negb (isType resistor c)) comps)
              = omap f comps).
    { intros f Hr. clear Hesp Hf. induction comps as [|c comps IH]; simpl; [done|].
      destruct (isType resistor c) eqn:Er; simpl.
      - by rewrite (Hr c Er).
      - destruct (f c); [f_equal|]; exact IH. }
    rewrite !E; [done| |].
    + intros c Hr. unfold potBinding, isType in *.
      apply bool_decide_eq_true in Hr. by rewrite Hr.
    + intros c Hr. unfold ledBinding, isType in *.
      apply bool_decide_eq_true in Hr. by rewrite Hr.
  - destruct running; simpl; [|done]. unfold updateLedStates.
    apply fold_left_pointwise. intros m c. unfold ledStateStep.
    rewrite potScan_filter.
    + by rewrite find_filter_implied by apply ledToEsp_onController.
    + intros x. unfold potLink. intros H.
      apply orb_true_iff in H as [H|H]; apply andb_true_iff in H as [_ H];
        rewrite H; [apply orb_true_r | done].
Qed.

Lemma only_controller_wires_count_witness :
  generateCode (components (dimmer 700)) []
  = generateCode (components (dimmer 700))
      [Connection.mk "conn_9" "led_2" "cathode" "potentiometer_3" "gnd"].
Proof.
  destruct (only_controller_wires_count true (components (dimmer 700))
              [Connection.mk "conn_9" "led_2" "cathode" "potentiometer_3" "gnd"]
              (newComponent 1 esp8266)) as (H & _ & _);
    [vm_compute; reflexivity|].
  exact H.
Defined.

(** ** The first wire wins *)

Lemma omap_sublist {A B} (f g : A → option B) (l : list A) :
  (∀ x b, f x = Some b → g x = Some b) → omap f l `sublist_of` omap g l.
Proof.
  intros H. induction l as [|a l IH]; simpl; [constructor|].
  destruct (f a) as [b|] eqn:Ef.
  - rewrite (H a b Ef). by constructor.
  - destruct (g a); [by constructor | exact IH].
Qed.

Lemma find_app_list {A} (f : A → bool) (l k : list A) :
  find f (l ++ k) = match find f l with Some x => Some x | None => find f k end.
Proof.
  induction l as [|a l IH]; simpl; [done|]. by destruct (f a).
Qed.

Lemma binding_app_stable pinId conns more esp comp b :
  binding pinId conns esp comp = Some b →
  binding pinId (conns ++ more) esp comp = Some b.
Proof.
  unfold binding. destruct (find _ conns) as [c|] eqn:E; [|done].
  intros Hb. by rewrite find_app_list, E.
Qed.

(** X4: drawing further wires never rebinds. Whatever is appended to the
    connection list, a component that was bound keeps its controller pin
    (the first matching wire wins), and the bound LEDs and potentiometers of
    before are still there, in the same order. *)
Theorem further_wires_never_rebind (comps : list Component.t)
    (conns more : list Connection.t) (esp : Component.t) :
  (∀ pinId comp b,
     binding pinId conns esp comp = Some b →
     binding pinId (conns ++ more) esp comp = Some b)
  ∧ (resolve comps conns esp).1 `sublist_of` (resolve comps (conns ++ more) esp).1
  ∧ (resolve comps conns esp).2 `sublist_of` (resolve comps (conns ++ more) esp).2.
Proof.
  split; [intros pinId comp b; apply binding_app_stable|].
  rewrite !resolve_spec. simpl. split; apply omap_sublist; intros c b.
  - unfold ledBinding. destruct (isType led c); [apply binding_app_stable | done].
  - unfold potBinding. destruct (isType potentiometer c);
      [apply binding_app_stable | done].
Qed.

(** ** Writing and reading a potentiometer value *)

Lemma updatePotValue_findById_same cid v comps c :
  findById comps cid = Some c →
  findById (updatePotValue cid v comps) cid
  = Some (Component.mk (Component.id c) (Component.type c) (Component.x c)
            (Component.y c) (Some (withValue (Component.config c) v))
            (Component.pins c)).
Proof.
  unfold findById, updatePotValue.
  induction comps as [|a comps IH]; simpl; [done|].
  destruct (String.eqb (Component.id a) cid) eqn:E; simpl.
  - rewrite E. by intros [= ->].
  - rewrite E. exact IH.
Qed.

Lemma updatePotValue_findById_other cid cid' v comps :
  cid' ≠ cid →
  findById (updatePotValue cid v comps) cid' = findById comps cid'.
Proof.
  intros Hne. unfold findById, updatePotValue.
  induction comps as [|a comps IH]; simpl; [done|].
  destruct (String.eqb_spec (Component.id a) cid) as [E|E]; simpl.
  - rewrite E, (proj2 (String.eqb_neq _ _)) by congruence. exact IH.
  - by rewrite IH.
Qed.

(** X5: [updatePotValue] behaves as a store of readings keyed by component
    id: a reading written under an id that exists is the one read back, the
    components found under other ids are untouched, a second write under the
    same id replaces the first, and writes under different ids commute. *)
Theorem reading_written_is_read (comps : list Component.t) (cid cid' : string)
    (v v' : Z) :
  (is_Some (findById comps cid) →
   configValue (findById (updatePotValue cid v comps) cid) = Some v)
  ∧ (cid' ≠ cid →
     findById (updatePotValue cid v comps) cid' = findById comps cid')
  ∧ updatePotValue cid v' (updatePotValue cid v comps) = updatePotValue cid v' comps
  ∧ (cid' ≠ cid →
     updatePotValue cid' v' (updatePotValue cid v comps)
     = updatePotValue cid v (updatePotValue cid' v' comps)).
Proof.
  split; [|split; [|split]].
  - intros [c Hc]. rewrite (updatePotValue_findById_same _ _ _ _ Hc). simpl.
    unfold withValue. by destruct (Component.config c).
  - apply updatePotValue_findById_other.
  - unfold updatePotValue. rewrite map_map. apply map_ext. intros c.
    destruct (String.eqb (Component.id c) cid) eqn:E; simpl; rewrite E; [|done].
    unfold withValue. by destruct (Component.config c).
  - intros Hne. unfold updatePotValue. rewrite !map_map. apply map_ext. intros c.
    destruct (String.eqb_spec (Component.id c) cid) as [E|E];
      destruct (String.eqb_spec (Component.id c) cid') as [E'|E']; simpl;
      rewrite ?(proj2 (String.eqb_eq _ _) E), ?(proj2 (String.eqb_eq _ _) E'),
        ?(proj2 (String.eqb_neq _ _) E), ?(proj2 (String.eqb_neq _ _) E');
      try done.
    congruence.
Qed.

(** ** Dragging *)





(** ** When the code is regenerated *)



(** ** Invariants of the reachable states *)

Lemma fold_left_invariant {S A} (f : S → A → S) (P : S → Prop) (l : list A) (s : S) :
  (∀ s a, P s → P (f s a)) → P s → P (fold_left f l s).
Proof.
  intros Hstep. revert s. induction l as [|a l IH]; intros s Hs; simpl; [done|].
  apply IH. by apply Hstep.
Qed.

Lemma reachable_invariant (P : State → Prop) :
  P initialState → (∀ st a, P st → P (step st a)) →
  ∀ st, reachable st → P st.
Proof.
  intros H0 Hstep st [actions <-]. unfold run. by apply fold_left_invariant.
Qed.

Lemma step_keeps_distinct_ends st a :
  (∀ c, c ∈ connections st →
        Connection.fromComponentId c ≠ Connection.toComponentId c) →
  ∀ c, c ∈ connections (step st a) →
       Connection.fromComponentId c ≠ Connection.toComponentId c.
Proof.
  intros IH.
  destruct a as [now type| now cid pid | | mx my cid | mx my | | cid v | | | text];
    simpl; try exact IH.
  - unfold clickAdd. by destruct (buttonDisabled type st).
  - unfold handlePinClick. destruct (connectingPin st) as [p|]; [|exact IH].
    destruct (String.eqb_spec (PinConnection.componentId p) cid) as [E|E];
      simpl; [exact IH|].
    intros c [Hc|Hc]%elem_of_app; [by apply IH|].
    apply list_elem_of_singleton in Hc as ->. exact E.
  - unfold handleMouseDown. by destruct (findById _ _).
  - unfold handleMouseMove. by destruct (draggingComponent st).
  - intros c Hc. by apply elem_of_nil in Hc.
Qed.

(** X8: no reachable state holds a connection from a component to itself. *)
Theorem no_self_connection (st : State) :
  reachable st →
  ∀ c, c ∈ connections st →
       Connection.fromComponentId c ≠ Connection.toComponentId c.
Proof.
  revert st.
  apply (reachable_invariant
           (fun st => ∀ c, c ∈ connections st →
                           Connection.fromComponentId c ≠ Connection.toComponentId c)).
  - intros c Hc. by apply elem_of_nil in Hc.
  - intros st a IH. by apply step_keeps_distinct_ends.
Qed.

Lemma no_self_connection_witness :
  Forall (fun c => Connection.fromComponentId c ≠ Connection.toComponentId c)
    (connections (run [ClickAdd 1 led; PinClick 2 "led_1" "anode";
                       PinClick 3 "led_1" "cathode";
                       PinClick 4 "led_1" "anode"; PinClick 5 "x" "y"])).
Proof.
  apply List.Forall_forall. intros c Hc. apply list_elem_of_In in Hc. revert c Hc.
  apply no_self_connection. eexists. reflexivity.
Defined.

(** X9: in every reachable state the brightness map is the one the
    simulation derives from the current run flag, components and
    connections; it is empty whenever the simulation is stopped; and pressing
    the run button twice gives back the very same state. *)
Theorem brightness_in_sync (st : State) :
  reachable st →
  ledStates st = simulate (isRunning st) (components st) (connections st)
  ∧ (isRunning st = false → ledStates st = ∅)
  ∧ step (step st ToggleRun) ToggleRun = st.
Proof.
  intros Hr.
  assert (Hsync : ledStates st
                  = simulate (isRunning st) (components st) (connections st)).
  { revert st Hr.
    apply (reachable_invariant
             (fun st => ledStates st
                        = simulate (isRunning st) (components st) (connections st)));
      [done|].
    intros st a IH.
    destruct a as [now type| now cid pid | | mx my cid | mx my | | cid v | | | text];
      simpl; try done.
    - unfold clickAdd. by destruct (buttonDisabled type st).
    - unfold handlePinClick. destruct (connectingPin st) as [p|]; [|done].
      by destruct (negb _).
    - unfold handleMouseDown. by destruct (findById _ _).
    - unfold handleMouseMove. by destruct (draggingComponent st). }
  split; [exact Hsync|]. split.
  - intros Hoff. by rewrite Hsync, Hoff.
  - destruct st as [cs ns cd r d o p m]. simpl in *. subst m.
    by rewrite negb_involutive.
Qed.

Lemma brightness_in_sync_witness :
  step (step (dimmer 700) ToggleRun) ToggleRun = dimmer 700
  ∧ ledStates (step (dimmer 700) ToggleRun) = ∅.
Proof.
  assert (Hr : ∀ actions, reachable (run actions)) by (intros; by eexists).
  split.
  - apply (brightness_in_sync (dimmer 700)), Hr.
  - apply (brightness_in_sync (step (dimmer 700) ToggleRun)); [|reflexivity].
    exists [ClickAdd 1 esp8266; ClickAdd 2 led; ClickAdd 3 potentiometer;
            PinClick 4 "led_2" "anode"; PinClick 5 "esp8266_1" "D2";
            PinClick 6 "potentiometer_3" "signal"; PinClick 7 "esp8266_1" "A0";
            SetPot "potentiometer_3" 700; ToggleRun; ToggleRun].
    reflexivity.
Defined.

(** ** Component ids and pin layouts *)

Lemma freshId_inj (s1 s2 : ComponentType * Z) : freshId s1 = freshId s2 → s1 = s2.
Proof.
  destruct s1 as [t1 n1], s2 as [t2 n2]. unfold freshId, showZ. simpl.
  destruct t1, t2; simpl; intros H; try discriminate H;
    injection H as H; simpl in H; apply pretty_Z_inj in H; by subst.
Qed.

Lemma run_snoc actions a : run (actions ++ [a]) = step (run actions) a.
Proof. unfold run. by rewrite fold_left_app. Qed.

Lemma map_id_relabel (g : Component.t → Component.t) comps :
  (∀ c, Component.id (g c) = Component.id c) →
  map Component.id (map g comps) = map Component.id comps.
Proof. intros H. rewrite map_map. by apply map_ext. Qed.

Lemma step_ids st a :
  map Component.id (components (step st a)) = map Component.id (components st)
  ∨ ∃ now type, a = ClickAdd now type
                ∧ map Component.id (components (step st a))
                  = map Component.id (components st) ++ [freshId (type, now)].
Proof.
  destruct a as [now type| now cid pid | | mx my cid | mx my | | cid v | | | text];
    simpl; try by left.
  - unfold clickAdd. destruct (buttonDisabled type st); [by left|].
    right. exists now, type. split; [done|]. simpl. unfold addComponent.
    by rewrite map_app.
  - left. unfold handlePinClick. destruct (connectingPin st); [|done].
    by destruct (negb _).
  - left. unfold handleMouseDown. by destruct (findById _ _).
  - left. unfold handleMouseMove. destruct (draggingComponent st); [|done].
    simpl. apply map_id_relabel. intros c. by destruct (String.eqb _ _).
  - left. apply map_id_relabel. intros c. by destruct (String.eqb _ _).
Qed.

Lemma ids_sublist_stamps actions :
  map Component.id (components (run actions))
  `sublist_of` map freshId (clickStamps actions).
Proof.
  induction actions as [|a actions IH] using rev_ind; [constructor|].
  rewrite run_snoc. unfold clickStamps. rewrite omap_app, map_app.
  destruct (step_ids (run actions) a) as [E|(now & type & -> & E)]; rewrite E.
  - by apply sublist_inserts_r.
  - simpl. by apply sublist_app.
Qed.

(** X10: when no two palette clicks of the same component type carry the same
    timestamp, all component ids of the resulting store are distinct. (Two
    such clicks within one millisecond are the one way to get equal ids: an
    id is the type name, an underscore and [Date.now()].) *)
Theorem distinct_stamps_distinct_ids (actions : list Action) :
  NoDup (clickStamps actions) →
  NoDup (map Component.id (components (run actions))).
Proof.
  intros H. apply sublist_NoDup with (map freshId (clickStamps actions));
    [|apply ids_sublist_stamps].
  change (NoDup (freshId <$> clickStamps actions)).
  apply NoDup_fmap_2; [|exact H]. intros s1 s2. apply freshId_inj.
Qed.

Lemma distinct_stamps_distinct_ids_witness :
  NoDup (map Component.id (components (dimmer 700))).
Proof.
  apply (distinct_stamps_distinct_ids
           [ClickAdd 1 esp8266; ClickAdd 2 led; ClickAdd 3 potentiometer;
            PinClick 4 "led_2" "anode"; PinClick 5 "esp8266_1" "D2";
            PinClick 6 "potentiometer_3" "signal"; PinClick 7 "esp8266_1" "A0";
            SetPot "potentiometer_3" 700; ToggleRun]).
  apply (bool_decide_unpack _). vm_compute. exact I.
Defined.

Lemma pinsOf_distinct (t : ComponentType) : NoDup (map Pin.id (pinsOf t)).
Proof. destruct t; apply (bool_decide_unpack _); vm_compute; exact I. Qed.

(** X11: every component of a reachable store still has the id it was created
    with (its type name, an underscore, a timestamp) and exactly the pin
    layout of its type, in which no two pins share an id; so two components
    with the same id have the same type, and an LED or potentiometer never
    shares its id with the controller. *)
Theorem components_keep_layout (st : State) :
  reachable st →
  (∀ c, c ∈ components st →
        (∃ now, Component.id c = freshId (Component.type c, now))
        ∧ Component.pins c = Some (pinsOf (Component.type c)))
  ∧ (∀ c pins, c ∈ components st → Component.pins c = Some pins →
               NoDup (map Pin.id pins))
  ∧ (∀ c1 c2, c1 ∈ components st → c2 ∈ components st →
              Component.id c1 = Component.id c2 →
              Component.type c1 = Component.type c2).
Proof.
  intros Hr.
  assert (Hlay : ∀ c, c ∈ components st →
            (∃ now, Component.id c = freshId (Component.type c, now))
            ∧ Component.pins c = Some (pinsOf (Component.type c))).
  { revert st Hr.
    apply (reachable_invariant
             (fun st => ∀ c, c ∈ components st →
                (∃ now, Component.id c = freshId (Component.type c, now))
                ∧ Component.pins c = Some (pinsOf (Component.type c)))).
    - intros c Hc. by apply elem_of_nil in Hc.
    - intros st a IH.
      assert (Hmap : ∀ g : Component.t → Component.t,
                (∀ c, c ∈ components st →
                      Component.id (g c) = Component.id c
                      ∧ Component.type (g c) = Component.type c
                      ∧ Component.pins (g c) = Component.pins c) →
                ∀ c, c ∈ map g (components st) →
                  (∃ now, Component.id c = freshId (Component.type c, now))
                  ∧ Component.pins c = Some (pinsOf (Component.type c))).
      { intros g Hg c Hc. apply list_elem_of_In, in_map_iff in Hc as (c0 & <- & Hc0).
        apply list_elem_of_In in Hc0.
        destruct (Hg c0 Hc0) as (-> & -> & ->). by apply IH. }
      destruct a as [now type| now cid pid | | mx my cid | mx my | | cid v | | | text];
        simpl; try exact IH.
      + unfold clickAdd. destruct (buttonDisabled type st); [exact IH|]. simpl.
        intros c [Hc|Hc]%elem_of_app; [by apply IH|].
        apply list_elem_of_singleton in Hc as ->. simpl. split; [by exists now|done].
      + unfold handlePinClick. destruct (connectingPin st); [|exact IH].
        by destruct (negb _).
      + unfold handleMouseDown. by destruct (findById _ _).
      + unfold handleMouseMove. destruct (draggingComponent st); [|exact IH].
        simpl. apply Hmap. intros c _. by destruct (String.eqb _ _).
      + apply Hmap. intros c _. by destruct (String.eqb _ _). }
  split; [exact Hlay|]. split.
  { intros c pins Hc Hp. destruct (Hlay c Hc) as [_ E]. rewrite E in Hp.
    injection Hp as <-. apply pinsOf_distinct. }
  intros c1 c2 H1 H2 Hid.
  destruct (Hlay c1 H1) as [[n1 E1] _], (Hlay c2 H2) as [[n2 E2] _].
  rewrite E1, E2 in Hid. by apply freshId_inj in Hid as [= ? ?].
Qed.

Lemma components_keep_layout_witness :
  Forall (fun c => Component.pins c = Some (pinsOf (Component.type c)))
    (components (dimmer 700)).
Proof.
  apply List.Forall_forall. intros c Hc. apply list_elem_of_In in Hc.
  refine (proj2 (proj1 (components_keep_layout (dimmer 700) _) c Hc)).
  eexists. reflexivity.
Defined.

(** ** Through the canvas *)

Lemma hitPin_Some mx my comps comp pin :
  hitPin mx my comps = Some (comp, pin) →
  comp ∈ comps
  ∧ ∃ pins, Component.pins comp = Some pins ∧ pin ∈ pins
            ∧ pinHit mx my comp pin = true.
Proof.
  induction comps as [|c comps IH]; simpl; [done|].
  destruct (Component.pins c) as [pins|] eqn:Ep.
  - destruct (find (pinHit mx my c) pins) as [p|] eqn:Ef.
    + intros [= -> ->]. apply find_some in Ef as [Hin Hhit].
      split; [apply list_elem_of_here|]. exists pins.
      by rewrite list_elem_of_In.
    + intros H. destruct (IH H) as [Hc Hp]. split; [by apply list_elem_of_further | done].
  - intros H. destruct (IH H) as [Hc Hp]. split; [by apply list_elem_of_further | done].
Qed.

Lemma gestureStep_is_step st g :
  gestureStep st g = st ∨ ∃ a, gestureStep st g = step st a.
Proof.
  destruct g as [now type| now mx my | mx my | | cid v | | | | text]; simpl.
  - right. by exists (ClickAdd now type).
  - unfold canvasMouseDown.
    destruct (hitPin mx my (components st)) as [[comp pin]|].
    + right. by exists (PinClick now (Component.id comp) (Pin.id pin)).
    + destruct (find (inBox mx my) (components st)) as [comp|]; [|by left].
      right. by exists (MouseDown mx my (Component.id comp)).
  - right. by exists (MouseMove mx my).
  - right. by exists MouseUp.
  - right. by exists (SetPot cid v).
  - right. by exists CancelConnect.
  - right. by exists ClearConnections.
  - right. by exists ToggleRun.
  - right. by exists (EditCode text).
Qed.

Lemma play_reachable gestures : reachable (play gestures).
Proof.
  unfold play. apply fold_left_invariant; [|by exists []].
  intros st g [actions <-].
  destruct (gestureStep_is_step (run actions) g) as [->|[a ->]].
  - by exists actions.
  - exists (actions ++ [a]). apply run_snoc.
Qed.

Lemma endpointExists_app comps more cid pid :
  endpointExists comps cid pid → endpointExists (comps ++ more) cid pid.
Proof.
  intros (comp & pins & pin & Hc & H). exists comp, pins, pin.
  split; [apply elem_of_app; by left | exact H].
Qed.

Lemma endpointExists_relabel (g : Component.t → Component.t) comps cid pid :
  (∀ c, Component.id (g c) = Component.id c) →
  (∀ c, Component.pins (g c) = Component.pins c) →
  endpointExists comps cid pid → endpointExists (map g comps) cid pid.
Proof.
  intros Hid Hpins (comp & pins & pin & Hc & H1 & H2 & H3).
  exists (g comp), pins, pin. rewrite Hid, Hpins.
  split; [|done]. apply list_elem_of_In, in_map. by apply list_elem_of_In.
Qed.

Lemma wellWired_components st comps' :
  (∀ cid pid, endpointExists (components st) cid pid → endpointExists comps' cid pid) →
  wellWired st → wellWired (setComponents comps' st).
Proof.
  intros Hmono [Hconn Hpend]. split; simpl.
  - intros c Hc. destruct (Hconn c Hc). split; by apply Hmono.
  - intros p Hp. by apply Hmono, Hpend.
Qed.

Lemma gestureStep_wellWired st g : wellWired st → wellWired (gestureStep st g).
Proof.
  intros Hw.
  destruct g as [now type| now mx my | mx my | | cid v | | | | text]; simpl;
    try exact Hw.
  - unfold clickAdd. destruct (buttonDisabled type st); [exact Hw|].
    apply wellWired_components; [|exact Hw]. intros c p. apply endpointExists_app.
  - unfold canvasMouseDown.
    destruct (hitPin mx my (components st)) as [[comp pin]|] eqn:Ehit.
    + destruct (hitPin_Some _ _ _ _ _ Ehit) as (Hc & pins & Hp & Hin & _).
      assert (Hend : endpointExists (components st) (Component.id comp) (Pin.id pin))
        by (by exists comp, pins, pin).
      destruct Hw as [Hconn Hpend]. unfold handlePinClick.
      destruct (connectingPin st) as [p|] eqn:Epend.
      * destruct (negb _); (split; simpl; [|done]); [|exact Hconn].
        intros c [Hcin|Hcin]%elem_of_app; [by apply Hconn|].
        apply list_elem_of_singleton in Hcin as ->. simpl.
        split; [by apply Hpend | exact Hend].
      * split; simpl; [exact Hconn|]. by intros p [= <-].
    + destruct (find (inBox mx my) (components st)) as [comp|]; [|exact Hw].
      unfold handleMouseDown. by destruct (findById _ _).
  - unfold handleMouseMove. destruct (draggingComponent st); [|exact Hw].
    apply wellWired_components; [|exact Hw]. intros c p.
    apply endpointExists_relabel; intros x; by destruct (String.eqb _ _).
  - apply wellWired_components; [|exact Hw]. intros c p.
    apply endpointExists_relabel; intros x; by destruct (String.eqb _ _).
  - destruct Hw as [Hconn Hpend]. split; simpl; [exact Hconn | done].
  - destruct Hw as [Hconn Hpend]. split; simpl; [|exact Hpend].
    intros c Hc. by apply elem_of_nil in Hc.
Qed.

(** X12: starting from the empty page, whatever the user does through the
    palette, the canvas (pin clicks and grabs found by the hit test), the
    sliders and the toolbar, both ends of every connection and the pending
    endpoint name a pin that exists on a component of the store: no dangling
    connection is ever created. At most one controller exists, and no
    connection joins a component to itself. *)
Theorem no_dangling_connection (gestures : list Gesture) :
  wellWired (play gestures)
  ∧ (controllerCount (play gestures) ≤ 1)%nat
  ∧ (∀ c, c ∈ connections (play gestures) →
          Connection.fromComponentId c ≠ Connection.toComponentId c).
Proof.
  split; [|split].
  - unfold play. apply fold_left_invariant; [intros; by apply gestureStep_wellWired|].
    split; simpl; [|done]. intros c Hc. by apply elem_of_nil in Hc.
  - apply fold_left_invariant with (P := fun st => (controllerCount st ≤ 1)%nat).
    + intros st g H. destruct (gestureStep_is_step st g) as [->|[a ->]]; [done|].
      by apply step_controllerCount.
    + unfold controllerCount. simpl. lia.
  - apply fold_left_invariant
      with (P := fun st => ∀ c, c ∈ connections st →
                   Connection.fromComponentId c ≠ Connection.toComponentId c).
    + intros st g H. destruct (gestureStep_is_step st g) as [->|[a ->]]; [done|].
      by apply step_keeps_distinct_ends.
    + intros c Hc. by apply elem_of_nil in Hc.
Qed.

Example canvas_clicks_wire_led_to_D1 :
  connections (play [PaletteClick 1 esp8266; PaletteClick 2 led;
                     CanvasDown 3 120 100; CanvasDown 4 220 130])
  = [Connection.mk "conn_4" "led_2" "anode" "esp8266_1" "D1"].
Proof. vm_compute. reflexivity. Qed.

(** ** Which LEDs are lit, and how much *)

Lemma ledStateStep_entries all conns (m : gmap string Qc) (c : Component.t)
    (Q : string → Qc → Prop) :
  (∀ k q, m !! k = Some q → Q k q) →
  (isType led c = true → (∃ x, x ∈ conns ∧ ledToEsp all c x = true) →
   Q (Component.id c) (litLevel all conns)) →
  ∀ k q, ledStateStep all conns m c !! k = Some q → Q k q.
Proof.
  intros Hm Hc k q. unfold ledStateStep, litLevel in *.
  destruct (isType led c); [|apply Hm].
  destruct (find (ledToEsp all c) conns) as [x|] eqn:Ef; [|apply Hm].
  apply find_some in Ef as [Hin Hx]. apply list_elem_of_In in Hin.
  specialize (Hc eq_refl (ex_intro _ x (conj Hin Hx))).
  destruct (potScan all conns) as [[] pv];
    (destruct (decide (Component.id c = k)) as [<-|Hk];
     [rewrite lookup_insert_eq; by intros [= <-]
     | rewrite lookup_insert_ne by done; apply Hm]).
Qed.

Lemma ledStates_fold_entries all conns comps (m : gmap string Qc)
    (Q : string → Qc → Prop) :
  (∀ k q, m !! k = Some q → Q k q) →
  (∀ c, c ∈ comps → isType led c = true →
        (∃ x, x ∈ conns ∧ ledToEsp all c x = true) →
        Q (Component.id c) (litLevel all conns)) →
  ∀ k q, fold_left (ledStateStep all conns) comps m !! k = Some q → Q k q.
Proof.
  revert m. induction comps as [|c comps IH]; intros m Hm Hc; simpl; [exact Hm|].
  apply IH.
  - apply ledStateStep_entries; [exact Hm|]. apply Hc, list_elem_of_here.
  - intros c' Hc'. apply Hc. by apply list_elem_of_further.
Qed.

Lemma simulate_entry_level comps conns k q :
  simulate true comps conns !! k = Some q → q = litLevel comps conns.
Proof.
  revert k q. simpl. unfold updateLedStates.
  apply (ledStates_fold_entries comps conns comps ∅
           (fun _ q => q = litLevel comps conns)); [|done].
  intros k q Hk. by rewrite lookup_empty in Hk.
Qed.



Lemma num_lt (a b : Z) : a < b → (num a < num b)%Qc.
Proof.
  intros H. unfold Qclt, num, Q2Qc. cbn [this]. rewrite !Qred_correct.
  unfold Qlt. simpl. lia.
Qed.

Lemma num_le (a b : Z) : a ≤ b → (num a <= num b)%Qc.
Proof.
  intros H. unfold Qcle, num, Q2Qc. cbn [this]. rewrite !Qred_correct.
  unfold Qle. simpl. lia.
Qed.

Lemma num_quotient_cancel (a : Z) : (num a / num 1023 * num 1023)%Qc = num a.
Proof.
  assert (Hnz : num 1023 ≠ Q2Qc 0).
  { intros E. apply (f_equal this) in E. vm_compute in E. discriminate E. }
  unfold Qcdiv. rewrite <- Qcmult_assoc, (Qcmult_comm (/ num 1023)).
  by rewrite Qcmult_inv_r, Qcmult_1_r.
Qed.

Lemma num_quotient_range (pv : Z) :
  1 ≤ pv ≤ 1023 → (0 < num pv / num 1023)%Qc ∧ (num pv / num 1023 <= 1)%Qc.
Proof.
  intros [Hlo Hhi].
  assert (Hpos : (0 < num 1023)%Qc) by (apply (num_lt 0 1023); lia).
  split.
  - apply (Qcmult_lt_mono_pos_r _ _ (num 1023) Hpos).
    rewrite num_quotient_cancel, Qcmult_0_l. apply (num_lt 0 pv). lia.
  - apply (Qcmult_le_mono_pos_r _ _ (num 1023) Hpos).
    rewrite num_quotient_cancel, Qcmult_1_l. by apply num_le.
Qed.

Lemma findById_elem comps id c : findById comps id = Some c → c ∈ comps.
Proof. unfold findById. intros [H _]%find_some. by apply list_elem_of_In. Qed.

Lemma potScan_range comps conns :
  readingsInRange comps → 1 ≤ (potScan comps conns).2 ≤ 1023.
Proof.
  intros Hr. unfold potScan.
  apply (fold_left_invariant (potScanStep comps) (fun acc => 1 ≤ acc.2 ≤ 1023));
    [|simpl; lia].
  intros acc c Hacc. unfold potScanStep.
  destruct (_ || _); [|exact Hacc]. simpl.
  set (potComp := if hasType potentiometer _ then _ else _).
  destruct potComp as [pc|] eqn:E; [|simpl; lia].
  assert (Hin : pc ∈ comps).
  { subst potComp. destruct (hasType potentiometer _); by apply findById_elem in E. }
  destruct (configValue (Some pc)) as [v|] eqn:Ev; [|simpl; lia].
  pose proof (Hr pc v Hin Ev). destruct v; simpl; lia.
Qed.

(** X14: when every stored reading lies in the slider's range 0..1023, every
    entry of the brightness map is greater than 0 and at most 1: a lit LED is
    never fully dark, whatever the readings. *)
Theorem brightness_in_unit_interval (comps : list Component.t)
    (conns : list Connection.t) (k : string) (q : Qc) :
  readingsInRange comps →
  simulate true comps conns !! k = Some q →
  (0 < q)%Qc ∧ (q <= 1)%Qc.
Proof.
  intros Hr Hq.
  apply simulate_entry_level in Hq. subst q. unfold litLevel. pose proof (potScan_range comps conns Hr) as Hpv.
  destruct (potScan comps conns) as [[] pv]; simpl in Hpv.
  - by apply num_quotient_range.
  - split; [apply (num_lt 0 1); lia | apply (num_le 1 1); lia].
Qed.

Lemma brightness_in_unit_interval_witness :
  (0 < num 512 / num 1023)%Qc ∧ (num 512 / num 1023 <= 1)%Qc.
Proof.
  apply (brightness_in_unit_interval (components (dimmer 0))
           (connections (dimmer 0)) "led_2" (num 512 / num 1023)%Qc).
  - intros comp v Hc Hv. vm_compute in Hc.
    apply elem_of_cons in Hc as [->|Hc]; [discriminate Hv|].
    apply elem_of_cons in Hc as [->|Hc]; [discriminate Hv|].
    apply list_elem_of_singleton in Hc as ->.
    vm_compute in Hv. injection Hv as <-. lia.
  - vm_compute. reflexivity.
Defined.

(** ** Where the simulation and the generated code part ways *)




(** ** Several potentiometers *)

Lemma potScan_app comps conns more :
  potScan comps (conns ++ more)
  = fold_left (potScanStep comps) more (potScan comps conns).
Proof. unfold potScan. by rewrite fold_left_app. Qed.

(** X16: the level follows the potentiometer wire drawn last. After a wire
    between a potentiometer and the controller is appended to the connection
    list, every lit LED shows that potentiometer's reading (512 when the
    reading is 0 or absent) over 1023, whatever other potentiometers were
    wired before. *)
Theorem last_potentiometer_wire_wins (comps : list Component.t)
    (conns : list Connection.t) (c : Connection.t) (k : string) (q : Qc) :
  potLink comps c = true →
  potScan comps (conns ++ [c]) = (true, orDefault (linkReading comps c) 512)
  ∧ (simulate true comps (conns ++ [c]) !! k = Some q →
     q = (num (orDefault (linkReading comps c) 512) / num 1023)%Qc).
Proof.
  intros Hlink.
  assert (E : potScan comps (conns ++ [c])
              = (true, orDefault (linkReading comps c) 512)).
  { rewrite potScan_app. simpl. unfold potScanStep.
    fold (potLink comps c). fold (linkReading comps c). by rewrite Hlink. }
  split; [exact E|]. intros Hq.
  apply simulate_entry_level in Hq as ->. unfold litLevel. by rewrite E.
Qed.

Lemma last_potentiometer_wire_wins_witness :
  potScan (components (dimmer 700))
    (connections (dimmer 700)
     ++ [Connection.mk "conn_9" "esp8266_1" "D7" "potentiometer_3" "vcc"])
  = (true, 700).
Proof.
  refine (proj1 (last_potentiometer_wire_wins (components (dimmer 700))
                   (connections (dimmer 700))
                   (Connection.mk "conn_9" "esp8266_1" "D7" "potentiometer_3" "vcc")
                   "led_2" (num 1) _)).
  vm_compute. reflexivity.
Defined.

(** ** The shape of the generated sketch *)

Lemma imap_elem {A B} (f : nat → A → B) (l : list A) (i : nat) (x : A) :
  l !! i = Some x → f i x ∈ imap f l.
Proof.
  intros H. apply list_elem_of_lookup. exists i. by rewrite list_lookup_imap, H.
Qed.

Lemma nonEmpty_lookup {A} (l : list A) (i : nat) (x : A) :
  l !! i = Some x → nonEmpty l = true.
Proof. by destruct l. Qed.

(** X17: in the lines [generateCode] joins, every constant that is used is
    declared. Each bound LED has its [LED_PIN] constant declared, is set up
    as an output, and is driven in the loop: by [analogWrite] when a
    potentiometer is bound, by [digitalWrite] HIGH and LOW otherwise. Each
    bound potentiometer has its [POT_PIN] constant declared, and is read in
    the loop when an LED is bound; the globals [potValue] and [brightness]
    are declared whenever the loop computes the remap. *)
Theorem sketch_declares_what_it_uses (leds pots : list Bound.t) :
  (∀ idx b, leds !! idx = Some b →
     ledDefine idx b ∈ codeLines leds pots
     ∧ ledPinMode idx b ∈ codeLines leds pots
     ∧ (if nonEmpty pots
        then ledAnalogWrite idx b ∈ codeLines leds pots
        else ledDigitalWrite "HIGH" idx b ∈ codeLines leds pots
             ∧ ledDigitalWrite "LOW" idx b ∈ codeLines leds pots))
  ∧ (∀ idx b, pots !! idx = Some b →
       potDefine idx b ∈ codeLines leds pots
       ∧ (nonEmpty leds = true → potRead idx b ∈ codeLines leds pots))
  ∧ (nonEmpty pots && nonEmpty leds = true →
     "int potValue = 0;" ∈ codeLines leds pots
     ∧ "int brightness = 0;" ∈ codeLines leds pots
     ∧ "  brightness = map(potValue, 0, 1023, 0, 255);" ∈ codeLines leds pots).
Proof.
  split; [|split].
  - intros idx b Hb. pose proof (nonEmpty_lookup _ _ _ Hb) as Hne.
    split; [|split].
    + apply pinDefinitions_in_code, elem_of_app. left. by apply imap_elem.
    + unfold codeLines, setupBlock. rewrite !elem_of_app, !elem_of_cons.
      pose proof (imap_elem ledPinMode leds idx b Hb). tauto.
    + unfold codeLines, loopBody. rewrite Hne.
      destruct (nonEmpty pots); simpl andb; cbv iota.
      * rewrite !elem_of_app.
        pose proof (imap_elem ledAnalogWrite leds idx b Hb). tauto.
      * rewrite !elem_of_app.
        pose proof (imap_elem (ledDigitalWrite "HIGH") leds idx b Hb).
        pose proof (imap_elem (ledDigitalWrite "LOW") leds idx b Hb). tauto.
  - intros idx b Hb. pose proof (nonEmpty_lookup _ _ _ Hb) as Hne. split.
    + apply pinDefinitions_in_code, elem_of_app. right. by apply imap_elem.
    + intros Hl. unfold codeLines, loopBody. rewrite Hne, Hl. simpl andb. cbv iota.
      rewrite !elem_of_app.
      pose proof (imap_elem potRead pots idx b Hb). tauto.
  - intros H. unfold codeLines, loopBody. rewrite H.
    rewrite !elem_of_app, !elem_of_cons. tauto.
Qed.

Lemma codeLines_dimmer (a p : Bound.t) :
  codeLines [a] [p] = dimmerText (Bound.pin a) (Bound.pin p).
Proof.
  unfold codeLines, pinDefinitions, setupBlock, loopBody, dimmerText.
  cbn [imap app nonEmpty compose andb].
  unfold ledDefine, potDefine, ledPinMode, potRead, ledAnalogWrite.
  change (0 + 1)%nat with 1%nat. rewrite showNat_1. reflexivity.
Qed.

(** X18: in a graph whose components are a controller, exactly one LED and
    exactly one potentiometer (resistors are allowed), with the LED's anode
    wired to a controller pin named [ledPin] and the potentiometer's signal
    pin wired to one named [potPin], the generated code is the dimmer sketch:
    both constants, the two globals, the LED set up as output, and a loop
    that reads the potentiometer, remaps 0..1023 to 0..255, writes the level
    to the LED, prints both values and waits 100 ms. *)
Theorem led_with_potentiometer_dims (comps : list Component.t)
    (conns : list Connection.t) (esp l p : Component.t) (ledPin potPin : string) :
  find (isType esp8266) comps = Some esp →
  List.filter (isType led) comps = [l] →
  List.filter (isType potentiometer) comps = [p] →
  Component.id l ≠ Component.id esp →
  Component.id p ≠ Component.id esp →
  wiredTo conns l esp "anode" ledPin →
  wiredTo conns p esp "signal" potPin →
  generateCode comps conns = join nl (dimmerText ledPin potPin).
Proof.
  intros Hesp Hled Hpot Hl Hp Hwl Hwp.
  rewrite (generateCode_controller _ _ _ Hesp).
  rewrite ledBinding_filter, potBinding_filter, Hled, Hpot.
  assert (El : omap (binding "anode" conns esp) [l]
               = [Bound.mk (Component.id l) ledPin]).
  { simpl. by rewrite (binding_wired _ _ _ _ _ Hl Hwl). }
  assert (Ep : omap (binding "signal" conns esp) [p]
               = [Bound.mk (Component.id p) potPin]).
  { simpl. by rewrite (binding_wired _ _ _ _ _ Hp Hwp). }
  by rewrite El, Ep, codeLines_dimmer.
Qed.

Lemma led_with_potentiometer_dims_witness :
  code (dimmer 700) = join nl (dimmerText "D2" "A0").
Proof.
  assert (Hmem : ∀ c, c ∈ connections (dimmer 700) →
            c = Connection.mk "conn_5" "led_2" "anode" "esp8266_1" "D2"
            ∨ c = Connection.mk "conn_7" "potentiometer_3" "signal" "esp8266_1" "A0").
  { intros c Hc. vm_compute in Hc.
    apply elem_of_cons in Hc as [->|Hc]; [by left|].
    apply list_elem_of_singleton in Hc as ->. by right. }
  apply (led_with_potentiometer_dims (components (dimmer 700))
           (connections (dimmer 700)) (newComponent 1 esp8266)
           (newComponent 2 led)
           (Component.mk "potentiometer_3" potentiometer 100 100
              (Some (Config.mk None (Some 700))) (Some (pinsOf potentiometer)))).
  - vm_compute; reflexivity.
  - vm_compute; reflexivity.
  - vm_compute; reflexivity.
  - vm_compute; discriminate.
  - vm_compute; discriminate.
  - split.
    + eexists _, "D2". split; [apply list_elem_of_here|]. left. vm_compute. by split.
    + intros c pin Hc Hj. destruct (Hmem c Hc) as [-> | ->];
        destruct Hj as [[H1 H2]|[H1 H2]]; vm_compute in H1, H2; by simplify_eq.
  - split.
    + eexists _, "A0". split; [apply list_elem_of_further, list_elem_of_here|].
      left. vm_compute. by split.
    + intros c pin Hc Hj. destruct (Hmem c Hc) as [-> | ->];
        destruct Hj as [[H1 H2]|[H1 H2]]; vm_compute in H1, H2; by simplify_eq.
Defined.

(** ** Every binding comes from a wire *)

Lemma splitHead_idempotent (s : string) : splitHead (splitHead s) = splitHead s.
Proof.
  induction s as [|a s IH]; simpl; [done|].
  destruct (Ascii.eqb a "_") eqn:E; simpl; [done|]. by rewrite E, IH.
Qed.

Lemma omap_length_le {A B} (f : A → option B) (l : list A) :
  (List.length (omap f l) ≤ List.length l)%nat.
Proof.
  induction l as [|a l IH]; [simpl; lia|].
  change (omap f (a :: l))
    with (match f a with Some y => y :: omap f l | None => omap f l end).
  destruct (f a); simpl List.length; lia.
Qed.

Lemma binding_sound pinId conns esp comp b :
  binding pinId conns esp comp = Some b →
  Bound.compId b = Component.id comp
  ∧ splitHead (Bound.pin b) = Bound.pin b
  ∧ ∃ c, c ∈ conns ∧ bindsTo pinId comp esp c = true
         ∧ Bound.pin b = splitHead (espPin esp c).
Proof.
  unfold binding. destruct (find _ conns) as [c|] eqn:E; [|done].
  intros [= <-]. simpl. apply find_some in E as [Hin Hb].
  split; [done|]. split; [apply splitHead_idempotent|].
  exists c. by rewrite list_elem_of_In.
Qed.

(** X19: the resolver invents nothing. Every entry of the bound LEDs belongs
    to an LED of the store and to a connection of the store that joins that
    LED's anode with the controller, its pin being the normalized
    controller-side pin of that connection (a name that normalization leaves
    as it is); likewise every bound potentiometer with its signal pin. There
    are never more bound LEDs than LEDs, nor more bound potentiometers than
    potentiometers. *)
Theorem bindings_come_from_wires (comps : list Component.t)
    (conns : list Connection.t) (esp : Component.t) :
  (∀ b, b ∈ (resolve comps conns esp).1 →
        ∃ l c, l ∈ comps ∧ Component.type l = led
               ∧ Bound.compId b = Component.id l
               ∧ c ∈ conns ∧ bindsTo "anode" l esp c = true
               ∧ Bound.pin b = splitHead (espPin esp c)
               ∧ splitHead (Bound.pin b) = Bound.pin b)
  ∧ (∀ b, b ∈ (resolve comps conns esp).2 →
          ∃ p c, p ∈ comps ∧ Component.type p = potentiometer
                 ∧ Bound.compId b = Component.id p
                 ∧ c ∈ conns ∧ bindsTo "signal" p esp c = true
                 ∧ Bound.pin b = splitHead (espPin esp c)
                 ∧ splitHead (Bound.pin b) = Bound.pin b)
  ∧ (List.length (resolve comps conns esp).1
     ≤ List.length (List.filter (isType led) comps))%nat
  ∧ (List.length (resolve comps conns esp).2
     ≤ List.length (List.filter (isType potentiometer) comps))%nat.
Proof.
  rewrite resolve_spec. simpl. split; [|split; [|split]].
  - intros b (l & Hl & Hb)%list_elem_of_omap. unfold ledBinding in Hb.
    destruct (isType led l) eqn:Ht; [|discriminate Hb].
    apply bool_decide_eq_true in Ht.
    destruct (binding_sound _ _ _ _ _ Hb) as (H1 & H2 & c & Hc & Hbt & Hpin).
    by exists l, c.
  - intros b (p & Hp & Hb)%list_elem_of_omap. unfold potBinding in Hb.
    destruct (isType potentiometer p) eqn:Ht; [|discriminate Hb].
    apply bool_decide_eq_true in Ht.
    destruct (binding_sound _ _ _ _ _ Hb) as (H1 & H2 & c & Hc & Hbt & Hpin).
    by exists p, c.
  - rewrite ledBinding_filter. apply omap_length_le.
  - rewrite potBinding_filter. apply omap_length_le.
Qed.
